(** * radardeck: UART pose deck, frame assembler and CRC-8 validator

    Shallow embedding of [src/deck/drivers/src/radardeck.c]: the CRC-8
    helper [crc8_maxim] and the body of the receive loop of [radarTask].

    Conventions.
    - A [uint8_t] is a [Z]; where C converts an [int] result back to
      [uint8_t] the wrap-around is written [u8].
    - A [float] is represented by its 32 bit IEEE-754 pattern (a [Z] below
      [2^32]).  The task only copies floats, it never computes with them,
      so the pattern is all the code observes.  The target is little
      endian: [((float * )&buf[1])[k]] is the pattern formed by the four
      bytes at [buf[1+4k] .. buf[4+4k]], least significant first.
    - The blocking read [uart1Getchar] is the input: the loop is run over
      a finite prefix of the byte stream.  [estimatorEnqueuePosition] is
      the output: the run returns the measurements handed to it, in order.
    - A store outside [buf] is undefined in C; the model returns [None]
      there. *)

From stdpp Require Import base option list numbers.

Local Open Scope Z_scope.

Module Radar.

(** ** Constants *)

Definition BAUDRATE : Z := 1000000.
Definition PKT_SYNC : Z := 0xA5.
Definition PKT_LEN : nat := 1 + 4 * 4 + 1.

(** ** Machine integers *)

(** Conversion of an [int] to [uint8_t]. *)
Definition u8 (v : Z) : Z := v mod 256.

Definition is_u8 (v : Z) : Prop := 0 <= v < 256.
Definition is_u32 (v : Z) : Prop := 0 <= v < 2 ^ 32.

(** ** CRC-8 helper *)

(** Body of the inner loop, on the pair of locals [(c, b)]:
    [mix = (c ^ b) & 1; c >>= 1; if (mix) c ^= 0x8C; b >>= 1;] *)
Definition crc8_bit (cb : Z * Z) : Z * Z :=
  let '(c, b) := cb in
  let mix := u8 (Z.land (Z.lxor c b) 1) in
  let c := u8 (Z.shiftr c 1) in
  let c := if mix =? 0 then c else u8 (Z.lxor c 0x8C) in
  let b := u8 (Z.shiftr b 1) in
  (c, b).

(** [uint8_t b = d[i]; for (uint8_t j = 0; j < 8; j++) { ... }] *)
Definition crc8_byte (c b : Z) : Z := fst (Nat.iter 8 crc8_bit (c, b)).

(** [crc8_maxim d n]: [d] is the memory from the pointer on, [n] the
    number of bytes read. *)
Definition crc8_maxim (d : list Z) (n : nat) : Z :=
  foldl (fun c i => crc8_byte c (d !!! i)) 0 (seq 0 n).

(** ** Floats in memory *)

(** The 32 bit pattern held by four consecutive bytes, little endian. *)
Definition f32_of_bytes (b0 b1 b2 b3 : Z) : Z :=
  b0 + 2 ^ 8 * b1 + 2 ^ 16 * b2 + 2 ^ 24 * b3.

(** [f[k]] for [float *f] pointing at the first byte of [p]. *)
Definition load_f32 (p : list Z) (k : nat) : Z :=
  f32_of_bytes (p !!! (4 * k)%nat) (p !!! (4 * k + 1)%nat)
               (p !!! (4 * k + 2)%nat) (p !!! (4 * k + 3)%nat).

(** Classification of a pattern by biased exponent and fraction. *)
Definition f32_exponent (v : Z) : Z := Z.land (Z.shiftr v 23) 0xFF.
Definition f32_fraction (v : Z) : Z := Z.land v 0x7FFFFF.
Definition f32_is_nan (v : Z) : bool :=
  (f32_exponent v =? 0xFF) && negb (f32_fraction v =? 0).
Definition f32_is_inf (v : Z) : bool :=
  (f32_exponent v =? 0xFF) && (f32_fraction v =? 0).

(** ** Measurements *)

(** Modelled from the spec: [stabilizer_types.h] is not part of the
    sources; the measurement carries "a fixed source tag identifying this
    decoder as the origin", the only enumerator the driver names. *)
Inductive measurementSource_t : Set := MeasurementSourceLocationService.

(** [positionMeasurement_t], fields [x], [y], [z], [stdDev], [source]. *)
Record positionMeasurement_t : Set := PositionMeasurement {
  pm_x : Z;
  pm_y : Z;
  pm_z : Z;
  pm_stdDev : Z;
  pm_source : measurementSource_t
}.

(** ** State of the task *)

(** The locals [buf], [idx] of [radarTask] and the file-scope variables
    [lastX], [lastY], [lastZ], [poseValid].  [idx] is a [size_t]; it is
    incremented only after a store inside [buf], so it never wraps. *)
Record state : Type := State {
  buf : list Z;
  idx : nat;
  lastX : Z;
  lastY : Z;
  lastZ : Z;
  poseValid : Z
}.

(** [buf] has its declared size. *)
Definition wf (s : state) : Prop := length (buf s) = PKT_LEN.

(** State on entry of the loop: [idx = 0], statics zero-initialised, the
    local array [buf] holds whatever [junk] the stack held. *)
Definition init_state (junk : list Z) : state :=
  State junk 0 0 0 0 0.

(** [buf[idx++] = byte;] *)
Definition buf_store (s : state) (byte : Z) : option state :=
  if decide (idx s < PKT_LEN)%nat then
    Some (State (<[idx s := byte]> (buf s)) (S (idx s))
                (lastX s) (lastY s) (lastZ s) (poseValid s))
  else None.

(** [crc8_maxim(&buf[1], PKT_LEN - 2) == buf[PKT_LEN - 1]] *)
Definition crc_ok (b : list Z) : bool :=
  crc8_maxim (drop 1 b) (PKT_LEN - 2) =? b !!! (PKT_LEN - 1)%nat.

(** The measurement built from [float *f = (float * )&buf[1]]. *)
Definition decode (b : list Z) : positionMeasurement_t :=
  let f := drop 1 b in
  PositionMeasurement (load_f32 f 0) (load_f32 f 1) (load_f32 f 2)
                      (load_f32 f 3) MeasurementSourceLocationService.

(** [if (idx == PKT_LEN) { if (crc ...) { ... } idx = 0; }]: returns the
    new state and the measurement passed to [estimatorEnqueuePosition],
    if any. *)
Definition frame_done (s : state) : state * option positionMeasurement_t :=
  if decide (idx s = PKT_LEN) then
    if crc_ok (buf s) then
      let f := drop 1 (buf s) in
      (State (buf s) 0 (load_f32 f 0) (load_f32 f 1) (load_f32 f 2) 1,
       Some (decode (buf s)))
    else
      (State (buf s) 0 (lastX s) (lastY s) (lastZ s) (poseValid s), None)
  else (s, None).

(** One turn of the [for (;;)] loop on the byte read. *)
Definition radar_step (s : state) (byte : Z)
  : option (state * option positionMeasurement_t) :=
  if decide (idx s = 0%nat) then
    if byte =? PKT_SYNC then
      s' ← buf_store s byte; Some (s', None)
    else Some (s, None)
  else
    s' ← buf_store s byte; Some (frame_done s').

(** The measurements of one turn, as a list. *)
Definition emitted (out : option positionMeasurement_t)
  : list positionMeasurement_t := from_option (fun m => [m]) [] out.

(** The loop over the bytes read so far: final state and the
    measurements enqueued, oldest first. *)
Fixpoint radarTask (s : state) (bytes : list Z)
  : option (state * list positionMeasurement_t) :=
  match bytes with
  | [] => Some (s, [])
  | byte :: rest =>
      '(s', out) ← radar_step s byte;
      '(s'', outs) ← radarTask s' rest;
      Some (s'', emitted out ++ outs)
  end.

(** Cached pose and validity flag, the state the telemetry reads. *)
Definition cache (s : state) : Z * Z * Z * Z :=
  (lastX s, lastY s, lastZ s, poseValid s).

(** Result of the turn that completes [frame]. *)
Definition completed (s : state) (frame : list Z)
  : state * option positionMeasurement_t :=
  frame_done (State frame PKT_LEN (lastX s) (lastY s) (lastZ s) (poseValid s)).

(** ** The specification's wording, for comparison *)

(** CRC-8 as section 4.2 of the specification words it: per bit
    "compute mix = (crc XOR byte) AND 1; shift crc right by 1; if mix is
    set, XOR crc with 0x8C; shift byte right by 1", eight bits per byte,
    starting from 0x00.  No machine-width conversions here. *)
Fixpoint spec_crc8_bits (k : nat) (crc byte : Z) : Z :=
  match k with
  | O => crc
  | S k' =>
      let mix := Z.land (Z.lxor crc byte) 1 in
      let crc := Z.shiftr crc 1 in
      let crc := if mix =? 1 then Z.lxor crc 0x8C else crc in
      spec_crc8_bits k' crc (Z.shiftr byte 1)
  end.

Definition spec_crc8 (payload : list Z) : Z :=
  fold_left (spec_crc8_bits 8) payload 0.

(** The wire format of section 6: the four bytes of a float32, least
    significant first. *)
Definition f32_bytes (v : Z) : list Z :=
  [v mod 256; (v / 2 ^ 8) mod 256; (v / 2 ^ 16) mod 256; (v / 2 ^ 24) mod 256].

Definition payload_of (x y z stdDev : Z) : list Z :=
  f32_bytes x ++ f32_bytes y ++ f32_bytes z ++ f32_bytes stdDev.

(** Sync byte, payload, CRC-8 over the payload. *)
Definition encode (x y z stdDev : Z) : list Z :=
  let payload := payload_of x y z stdDev in
  0xA5 :: payload ++ [spec_crc8 payload].

(** Bytes 1..16 of a frame. *)
Definition payload (frame : list Z) : list Z := take 16 (drop 1 frame).

(** A frame the transmitter may send: 18 bytes, sync first, CRC last. *)
Definition valid_frame (frame : list Z) : Prop :=
  length frame = 18%nat /\ Forall is_u8 frame /\
  frame !! 0%nat = Some 0xA5 /\
  frame !! 17%nat = Some (spec_crc8 (payload frame)).

(** Bit [k] of byte [i] of a frame inverted. *)
Definition flip_bit (frame : list Z) (i k : nat) : list Z :=
  <[i := Z.lxor (frame !!! i) (Z.shiftl 1 (Z.of_nat k))]> frame.

(** Checks over all byte values, by enumeration. *)
Definition all_u8 (P : Z -> bool) : bool := forallb P (seqZ 0 256).

Definition all_u8_2 (P : Z -> Z -> bool) : bool :=
  all_u8 (fun a => all_u8 (P a)).

(** ** Error patterns and parity *)

(** One turn of the inner loop of [crc8_maxim] once the data byte is
    used up ([b = 0]): the register alone. *)
Definition crc8_shift (c : Z) : Z := fst (crc8_bit (c, 0)).

(** Exclusive or of two byte arrays, position by position: an error
    pattern [e] laid over the data [d]. *)
Definition xor_bytes (d e : list Z) : list Z := zip_with Z.lxor d e.

(** Whether a byte, or a byte array, has an odd number of one bits. *)
Definition byte_parity (v : Z) : bool :=
  foldr (fun i acc => xorb (Z.testbit v (Z.of_nat i)) acc) false (seq 0 8).

Definition bytes_parity (l : list Z) : bool :=
  foldr (fun b acc => xorb (byte_parity b) acc) false l.

(** The error pattern of a burst: [ea] on byte [j], [eb] on byte
    [j + 1], the 16 other bytes of the frame untouched. *)
Definition burst_pattern (j : nat) (ea eb : Z) : list Z :=
  replicate j 0 ++ [ea; eb] ++ replicate (16 - j) 0.

(** The error pattern that inverts bit 0 of byte 1 and bit 7 of
    byte 16. *)
Definition double_bit_pattern : list Z :=
  [0; 0x01; 0; 0; 0; 0; 0; 0; 0; 0; 0; 0; 0; 0; 0; 0; 0x80; 0].

(** ** Byte streams *)

(** A byte stream cut where the task is idle: a run of bytes without
    sync byte, or 18 bytes of which the first is the sync byte. *)
Inductive chunk : Type :=
  | Noise (l : list Z)
  | Frame (f : list Z).

Definition chunk_ok (c : chunk) : Prop :=
  match c with
  | Noise l => Forall (fun b => b <> PKT_SYNC) l
  | Frame f => length f = PKT_LEN /\ f !! 0%nat = Some PKT_SYNC
  end.

Definition chunk_bytes (c : chunk) : list Z :=
  match c with Noise l => l | Frame f => f end.

(** What a chunk contributes: the decoded frame if it passes the
    task's check, nothing otherwise. *)
Definition chunk_out (c : chunk) : list positionMeasurement_t :=
  match c with
  | Noise _ => []
  | Frame f => if crc_ok f then [decode f] else []
  end.

(** [m] is the decoding of 18 consecutive bytes of [bytes] that start
    with the sync byte and pass the task's check. *)
Definition decoded_from (bytes : list Z) (m : positionMeasurement_t) : Prop :=
  exists pre frame post,
    bytes = pre ++ frame ++ post /\
    length frame = PKT_LEN /\ frame !! 0%nat = Some PKT_SYNC /\
    crc_ok frame = true /\ m = decode frame.

(** The bytes of the frame being assembled are the last bytes read,
    and the first of them is the sync byte. *)
Definition assembling (history : list Z) (s : state) : Prop :=
  wf s /\ (idx s < PKT_LEN)%nat /\
  (exists pre, history = pre ++ take (idx s) (buf s)) /\
  ((0 < idx s)%nat -> buf s !! 0%nat = Some PKT_SYNC).

Arguments crc8_byte : simpl never.

(** * Proofs *)

(** ** Enumeration of the byte values *)

Lemma all_u8_spec (P : Z -> bool) :
  all_u8 P = true -> forall v, is_u8 v -> P v = true.
Proof.
  unfold all_u8, is_u8. rewrite forallb_forall. intros H v Hv.
  apply H, list_elem_of_In, elem_of_seqZ. lia.
Qed.

Lemma all_u8_2_spec (P : Z -> Z -> bool) :
  all_u8_2 P = true -> forall a b, is_u8 a -> is_u8 b -> P a b = true.
Proof.
  intros H a b Ha Hb. unfold all_u8_2 in H.
  apply (all_u8_spec (P a)); [|done].
  by apply (all_u8_spec (fun a => all_u8 (P a))).
Qed.

(** ** The CRC on bytes *)

Lemma crc8_byte_u8 c b : is_u8 c -> is_u8 b -> is_u8 (crc8_byte c b).
Proof.
  intros Hc Hb.
  assert (H : all_u8_2 (fun c b => (0 <=? crc8_byte c b) && (crc8_byte c b <? 256)) = true)
    by (vm_compute; reflexivity).
  pose proof (all_u8_2_spec _ H c b Hc Hb) as H'.
  apply andb_true_iff in H' as [H1 H2]. unfold is_u8. lia.
Qed.

Lemma crc8_byte_spec c b :
  is_u8 c -> is_u8 b -> crc8_byte c b = spec_crc8_bits 8 c b.
Proof.
  intros Hc Hb.
  assert (H : all_u8_2 (fun c b => crc8_byte c b =? spec_crc8_bits 8 c b) = true)
    by (vm_compute; reflexivity).
  by apply Z.eqb_eq, (all_u8_2_spec _ H c b Hc Hb).
Qed.

Lemma lxor_u8 a b : is_u8 a -> is_u8 b -> is_u8 (Z.lxor a b).
Proof.
  intros Ha Hb.
  assert (H : all_u8_2 (fun a b => (0 <=? Z.lxor a b) && (Z.lxor a b <? 256)) = true)
    by (vm_compute; reflexivity).
  pose proof (all_u8_2_spec _ H a b Ha Hb) as H'.
  apply andb_true_iff in H' as [H1 H2]. unfold is_u8. lia.
Qed.

(** The byte enters the register by exclusive or, then eight shifts
    follow: the usual formulation of a reflected CRC. *)
Lemma crc8_byte_lxor c b :
  is_u8 c -> is_u8 b -> crc8_byte c b = crc8_byte (Z.lxor c b) 0.
Proof.
  intros Hc Hb.
  assert (H : all_u8_2 (fun c b => crc8_byte c b =? crc8_byte (Z.lxor c b) 0) = true)
    by (vm_compute; reflexivity).
  by apply Z.eqb_eq, (all_u8_2_spec _ H c b Hc Hb).
Qed.

Lemma crc8_shift_inj c1 c2 :
  is_u8 c1 -> is_u8 c2 -> crc8_byte c1 0 = crc8_byte c2 0 -> c1 = c2.
Proof.
  intros H1 H2 Heq.
  assert (H : all_u8_2 (fun c1 c2 =>
              implb (crc8_byte c1 0 =? crc8_byte c2 0) (c1 =? c2)) = true)
    by (vm_compute; reflexivity).
  pose proof (all_u8_2_spec _ H c1 c2 H1 H2) as H'. cbv beta in H'.
  apply Z.eqb_eq in Heq. rewrite Heq in H'. by apply Z.eqb_eq.
Qed.

Lemma lxor_cancel_r a b c : Z.lxor a c = Z.lxor b c -> a = b.
Proof.
  intros H. apply (f_equal (fun v => Z.lxor v c)) in H.
  by rewrite !Z.lxor_assoc, !Z.lxor_nilpotent, !Z.lxor_0_r in H.
Qed.

Lemma lxor_cancel_l a b c : Z.lxor c a = Z.lxor c b -> a = b.
Proof. rewrite !(Z.lxor_comm c). apply lxor_cancel_r. Qed.

(** Distinct registers stay distinct over a byte, and distinct bytes
    lead to distinct registers. *)
Lemma crc8_byte_inj_c c1 c2 b :
  is_u8 c1 -> is_u8 c2 -> is_u8 b ->
  crc8_byte c1 b = crc8_byte c2 b -> c1 = c2.
Proof.
  intros H1 H2 Hb.
  rewrite (crc8_byte_lxor c1 b), (crc8_byte_lxor c2 b) by done. intros H.
  apply crc8_shift_inj in H; [|by apply lxor_u8..].
  by apply lxor_cancel_r in H.
Qed.

Lemma crc8_byte_inj_b c b1 b2 :
  is_u8 c -> is_u8 b1 -> is_u8 b2 ->
  crc8_byte c b1 = crc8_byte c b2 -> b1 = b2.
Proof.
  intros Hc H1 H2.
  rewrite (crc8_byte_lxor c b1), (crc8_byte_lxor c b2) by done. intros H.
  apply crc8_shift_inj in H; [|by apply lxor_u8..].
  by apply lxor_cancel_l in H.
Qed.

(** ** The CRC on byte arrays *)

Lemma crc8_maxim_take (d : list Z) (n : nat) :
  (n <= length d)%nat -> crc8_maxim d n = foldl crc8_byte 0 (take n d).
Proof.
  unfold crc8_maxim. induction n as [|n IH]; intros Hn; [done|].
  destruct (lookup_lt_is_Some_2 d n) as [v Hv]; [lia|].
  rewrite seq_S, foldl_app, (take_S_r _ _ v), foldl_app by done. simpl.
  rewrite IH by lia. by rewrite (list_lookup_total_correct _ _ _ Hv).
Qed.

Lemma foldl_crc8_u8 (l : list Z) c :
  is_u8 c -> Forall is_u8 l -> is_u8 (foldl crc8_byte c l).
Proof.
  intros Hc Hl. revert c Hc.
  induction Hl as [|b l Hb Hl IH]; intros c Hc; simpl; [done|].
  by apply IH, crc8_byte_u8.
Qed.

Lemma foldl_crc8_spec (l : list Z) c :
  is_u8 c -> Forall is_u8 l ->
  foldl crc8_byte c l = fold_left (spec_crc8_bits 8) l c.
Proof.
  intros Hc Hl. revert c Hc.
  induction Hl as [|b l Hb Hl IH]; intros c Hc; [done|].
  cbn [foldl fold_left]. rewrite <- crc8_byte_spec by done.
  by apply IH, crc8_byte_u8.
Qed.

Lemma is_u8_0 : is_u8 0.
Proof. unfold is_u8. lia. Qed.

(** The helper computes the specification's CRC on any in-range prefix
    of byte-valued memory. *)
Lemma crc8_maxim_spec (d : list Z) (n : nat) :
  (n <= length d)%nat -> Forall is_u8 d ->
  crc8_maxim d n = spec_crc8 (take n d).
Proof.
  intros Hn Hd. rewrite crc8_maxim_take by done.
  apply foldl_crc8_spec; [apply is_u8_0|]. by apply Forall_take.
Qed.

Lemma foldl_crc8_inj_c (l : list Z) c1 c2 :
  is_u8 c1 -> is_u8 c2 -> Forall is_u8 l ->
  foldl crc8_byte c1 l = foldl crc8_byte c2 l -> c1 = c2.
Proof.
  intros H1 H2 Hl. revert c1 c2 H1 H2.
  induction Hl as [|b l Hb Hl IH]; intros c1 c2 H1 H2 H; [done|].
  simpl in H. apply IH in H; [|by apply crc8_byte_u8..].
  by apply crc8_byte_inj_c in H.
Qed.

(** Replacing one byte by a different one changes the CRC. *)
Lemma foldl_crc8_insert (l : list Z) c (j : nat) v v' :
  is_u8 c -> Forall is_u8 l -> is_u8 v' ->
  l !! j = Some v -> v <> v' ->
  foldl crc8_byte c (<[j := v']> l) <> foldl crc8_byte c l.
Proof.
  intros Hc Hl Hv'. revert c j Hc.
  induction Hl as [|b l Hb Hl IH]; intros c j Hc Hj Hne; [done|].
  destruct j as [|j]; simpl in *.
  - injection Hj as ->. intros H.
    apply foldl_crc8_inj_c in H; [|by apply crc8_byte_u8..|done].
    apply crc8_byte_inj_b in H; [|done..]. congruence.
  - apply IH; [by apply crc8_byte_u8|done..].
Qed.

Example crc8_check_value :
  crc8_maxim [0x31; 0x32; 0x33; 0x34; 0x35; 0x36; 0x37; 0x38; 0x39] 9 = 0xA1.
Proof. vm_compute. reflexivity. Qed.

(** ** The receive loop *)

Lemma radarTask_cons s byte rest :
  radarTask s (byte :: rest) =
  '(s', out) ← radar_step s byte;
  '(s'', outs) ← radarTask s' rest;
  Some (s'', emitted out ++ outs).
Proof. done. Qed.

Lemma radarTask_app s l1 l2 :
  radarTask s (l1 ++ l2) =
  '(s1, o1) ← radarTask s l1;
  '(s2, o2) ← radarTask s1 l2;
  Some (s2, o1 ++ o2).
Proof.
  revert s. induction l1 as [|b l1 IH]; intros s.
  - simpl. by destruct (radarTask s l2) as [[s2 o2]|].
  - rewrite <- app_comm_cons, !radarTask_cons.
    destruct (radar_step s b) as [[s' out]|]; [|done]. simpl.
    rewrite IH. destruct (radarTask s' l1) as [[s1 o1]|]; [|done]. simpl.
    destruct (radarTask s1 l2) as [[s2 o2]|]; [|done]. simpl.
    by rewrite app_assoc.
Qed.

Lemma frame_done_partial s : idx s <> PKT_LEN -> frame_done s = (s, None).
Proof. intros H. unfold frame_done. by rewrite decide_False. Qed.

Lemma frame_done_full s :
  idx s = PKT_LEN ->
  frame_done s =
  if crc_ok (buf s) then
    (State (buf s) 0 (load_f32 (drop 1 (buf s)) 0) (load_f32 (drop 1 (buf s)) 1)
           (load_f32 (drop 1 (buf s)) 2) 1, Some (decode (buf s)))
  else (State (buf s) 0 (lastX s) (lastY s) (lastZ s) (poseValid s), None).
Proof. intros H. unfold frame_done. by rewrite decide_True. Qed.

Lemma radar_step_idle s byte :
  idx s = 0%nat -> byte <> PKT_SYNC -> radar_step s byte = Some (s, None).
Proof.
  intros Hi Hb. unfold radar_step. rewrite decide_True by done.
  by rewrite (proj2 (Z.eqb_neq _ _) Hb).
Qed.

Lemma radar_step_sync s :
  idx s = 0%nat ->
  radar_step s PKT_SYNC =
  Some (State (<[0%nat := PKT_SYNC]> (buf s)) 1
              (lastX s) (lastY s) (lastZ s) (poseValid s), None).
Proof.
  intros Hi. unfold radar_step, buf_store. rewrite decide_True by done.
  rewrite Z.eqb_refl, Hi. done.
Qed.

Lemma radar_step_store s byte :
  (0 < idx s < PKT_LEN)%nat ->
  radar_step s byte =
  Some (frame_done (State (<[idx s := byte]> (buf s)) (S (idx s))
                          (lastX s) (lastY s) (lastZ s) (poseValid s))).
Proof.
  intros Hi. unfold radar_step, buf_store.
  rewrite decide_False by lia. by rewrite decide_True by lia.
Qed.

Lemma radarTask_noise s noise :
  idx s = 0%nat -> Forall (fun b => b <> PKT_SYNC) noise ->
  radarTask s noise = Some (s, []).
Proof.
  intros Hi Hn. induction Hn as [|b l Hb Hl IH]; [done|].
  rewrite radarTask_cons, radar_step_idle by done. simpl. by rewrite IH.
Qed.

(** Bytes read in the middle of a frame fill [buf] from [idx] on. *)
Lemma radarTask_fill l : forall pre post s,
  buf s = pre ++ post -> idx s = length pre -> (0 < length pre)%nat ->
  (length l <= length post)%nat -> (length pre + length l < PKT_LEN)%nat ->
  radarTask s l =
  Some (State ((pre ++ l) ++ drop (length l) post) (length pre + length l)
              (lastX s) (lastY s) (lastZ s) (poseValid s), []).
Proof.
  induction l as [|b l IH]; intros pre post s Hbuf Hidx Hpre Hpost Hlen.
  - simpl. rewrite app_nil_r, Nat.add_0_r, drop_0, <- Hbuf, <- Hidx. by destruct s.
  - destruct post as [|y post]; simpl in Hpost; [lia|].
    rewrite radarTask_cons, radar_step_store by (simpl in Hlen; lia).
    rewrite frame_done_partial by (simpl in *; lia). cbn [mbind option_bind].
    rewrite (IH (pre ++ [b]) post); cbn [buf idx lastX lastY lastZ poseValid].
    + rewrite length_app. simpl.
      rewrite <- (app_assoc pre [b] l). simpl.
      by replace (length pre + 1 + length l)%nat
        with (length pre + S (length l))%nat by lia.
    + rewrite Hbuf, Hidx, insert_app_r_alt, Nat.sub_diag by lia.
      simpl. by rewrite <- app_assoc.
    + rewrite length_app. simpl. lia.
    + rewrite length_app. simpl. lia.
    + lia.
    + rewrite length_app. simpl in *. lia.
Qed.

Lemma length_one_inv {A} (l : list A) : length l = 1%nat -> exists a, l = [a].
Proof. destruct l as [|a [|? ?]]; try done. by exists a. Qed.

(** A list of at least one element splits off its last one. *)
Lemma split_last {A} (l : list A) (n : nat) :
  length l = S n -> exists l' a, l = l' ++ [a] /\ length l' = n.
Proof.
  intros Hl. destruct (length_one_inv (drop n l)) as [a Ha].
  - rewrite length_drop. lia.
  - exists (take n l), a. split; [by rewrite <- Ha, take_drop|].
    rewrite length_take. lia.
Qed.

(** A sync byte and seventeen more bytes read from the idle state: the
    array holds exactly these bytes when the check is made. *)
Lemma radarTask_frame s frame :
  wf s -> idx s = 0%nat ->
  length frame = PKT_LEN -> frame !! 0%nat = Some PKT_SYNC ->
  radarTask s frame =
  Some (fst (completed s frame), emitted (snd (completed s frame))).
Proof.
  unfold wf. intros Hwf Hidx Hlen Hsync.
  destruct frame as [|b0 rest]; [done|]. injection Hsync as ->.
  destruct (split_last rest 16) as (mid & last & -> & Hmid);
    [by injection Hlen|].
  destruct (buf s) as [|y0 t] eqn:Hbuf; [done|].
  destruct (split_last t 16) as (t' & y17 & -> & Ht'); [by injection Hwf|].
  rewrite radarTask_cons, radar_step_sync by done. cbn [mbind option_bind].
  rewrite radarTask_app, Hbuf.
  rewrite (radarTask_fill mid [PKT_SYNC] (t' ++ [y17]));
    cbn [buf idx lastX lastY lastZ poseValid]; [|done|done|simpl; lia|..].
  - cbn [mbind option_bind].
    rewrite radarTask_cons, radar_step_store
      by (cbn [idx length]; rewrite Hmid; unfold PKT_LEN; simpl; lia).
    cbn [buf idx lastX lastY lastZ poseValid mbind option_bind radarTask].
    rewrite drop_app_length' by lia.
    rewrite insert_app_r_alt by (rewrite length_app; simpl; lia).
    rewrite length_app, Hmid. simpl length. cbn [Nat.add Nat.sub].
    change (<[0%nat := last]> [y17]) with [last].
    unfold completed.
    change (([PKT_SYNC] ++ mid) ++ [last]) with (PKT_SYNC :: mid ++ [last]).
    change 18%nat with PKT_LEN.
    destruct (frame_done _) as [s' out]. simpl. by rewrite app_nil_r.
  - rewrite length_app. simpl. lia.
  - unfold PKT_LEN. simpl. lia.
Qed.

(** ** Invariant of the loop *)

(** What one turn does to the state, whatever the byte: the store is
    inside [buf], the cursor stays below [PKT_LEN], the cache follows the
    measurement handed out, if any. *)
Lemma radar_step_inv s byte :
  wf s -> (idx s < PKT_LEN)%nat ->
  exists s' out,
    radar_step s byte = Some (s', out) /\
    wf s' /\ (idx s' < PKT_LEN)%nat /\
    (buf s' = buf s \/ buf s' = <[idx s := byte]> (buf s)) /\
    match out with
    | None => cache s' = cache s
    | Some m => cache s' = (pm_x m, pm_y m, pm_z m, 1)
    end.
Proof.
  unfold wf. intros Hwf Hidx.
  destruct (decide (idx s = 0%nat)) as [H0|H0].
  - destruct (decide (byte = PKT_SYNC)) as [->|Hb].
    + rewrite radar_step_sync by done. eexists _, _. split; [done|].
      cbn [buf idx]. rewrite length_insert, H0.
      repeat split; [done|unfold PKT_LEN; lia|by right].
    + rewrite radar_step_idle by done. exists s, None.
      repeat split; [done..|by left].
  - rewrite radar_step_store by lia. unfold frame_done. cbn [buf idx].
    destruct (decide (S (idx s) = PKT_LEN)) as [Hfull|Hpart].
    + destruct (crc_ok _); eexists _, _; (split; [done|]);
        cbn [buf idx]; rewrite length_insert;
        (repeat split; [done|unfold PKT_LEN; lia|by right]).
    + eexists _, _. split; [done|]. cbn [buf idx]. rewrite length_insert.
      repeat split; [done|lia|by right].
Qed.

Lemma radarTask_inv bytes : forall s,
  wf s -> (idx s < PKT_LEN)%nat ->
  exists s' outs,
    radarTask s bytes = Some (s', outs) /\
    wf s' /\ (idx s' < PKT_LEN)%nat /\
    poseValid s' = (if decide (outs = []) then poseValid s else 1).
Proof.
  induction bytes as [|b bytes IH]; intros s Hwf Hidx.
  - by exists s, [].
  - destruct (radar_step_inv s b Hwf Hidx)
      as (s1 & out & Hstep & Hwf1 & Hidx1 & _ & Hcache).
    destruct (IH s1 Hwf1 Hidx1) as (s2 & outs & Hrun & Hwf2 & Hidx2 & Hpv).
    exists s2, (emitted out ++ outs).
    rewrite radarTask_cons, Hstep. cbn [mbind option_bind].
    rewrite Hrun. repeat split; [done..|].
    rewrite Hpv. unfold cache in Hcache.
    destruct out as [m|]; simpl.
    + injection Hcache as _ _ _ ->. by destruct (decide (outs = [])).
    + injection Hcache as _ _ _ ->. done.
Qed.

(** ** Floats on the wire *)

Lemma f32_bytes_u8 v : Forall is_u8 (f32_bytes v).
Proof.
  unfold f32_bytes, is_u8. repeat constructor; apply Z.mod_pos_bound; lia.
Qed.

Lemma f32_of_bytes_f32_bytes v :
  is_u32 v ->
  f32_of_bytes (v mod 256) ((v / 2 ^ 8) mod 256)
               ((v / 2 ^ 16) mod 256) ((v / 2 ^ 24) mod 256) = v.
Proof.
  unfold is_u32, f32_of_bytes. intros Hv.
  change (2 ^ 8) with 256. change (2 ^ 16) with 65536.
  change (2 ^ 24) with 16777216. change (2 ^ 32) with 4294967296 in Hv.
  Z.div_mod_to_equations. lia.
Qed.

Lemma payload_of_u8 x y z sd : Forall is_u8 (payload_of x y z sd).
Proof. unfold payload_of. repeat apply Forall_app_2; apply f32_bytes_u8. Qed.

Lemma spec_crc8_u8 (l : list Z) : Forall is_u8 l -> is_u8 (spec_crc8 l).
Proof.
  intros Hl. unfold spec_crc8.
  rewrite <- foldl_crc8_spec by (done || apply is_u8_0).
  apply foldl_crc8_u8; [apply is_u8_0|done].
Qed.

(** The check made by the task, in terms of the specification's CRC. *)
Lemma crc_ok_spec (frame : list Z) :
  length frame = PKT_LEN -> Forall is_u8 frame ->
  crc_ok frame = true <-> frame !! 17%nat = Some (spec_crc8 (payload frame)).
Proof.
  intros Hlen Hu8. unfold crc_ok, payload.
  rewrite crc8_maxim_spec;
    [|rewrite length_drop, Hlen; unfold PKT_LEN; simpl; lia
     |by apply Forall_drop].
  change (PKT_LEN - 2)%nat with 16%nat. change (PKT_LEN - 1)%nat with 17%nat.
  destruct (lookup_lt_is_Some_2 frame 17) as [v Hv];
    [rewrite Hlen; unfold PKT_LEN; simpl; lia|].
  rewrite (list_lookup_total_correct _ _ _ Hv), Hv, Z.eqb_eq.
  split; [by intros ->|by intros [= ->]].
Qed.

Lemma crc_ok_false_spec (frame : list Z) :
  length frame = PKT_LEN -> Forall is_u8 frame ->
  frame !! 17%nat <> Some (spec_crc8 (payload frame)) -> crc_ok frame = false.
Proof.
  intros Hlen Hu8 Hne. apply not_true_is_false. intros H.
  by apply crc_ok_spec in H.
Qed.

(** ** Properties of the decoder *)

(** A valid frame read from the idle state: one measurement, the cache
    and the flag updated, the cursor back at 0. *)
Lemma radarTask_valid_frame s frame :
  wf s -> idx s = 0%nat -> valid_frame frame ->
  radarTask s frame =
  Some (State frame 0 (pm_x (decode frame)) (pm_y (decode frame))
              (pm_z (decode frame)) 1, [decode frame]).
Proof.
  intros Hwf Hidx (Hlen & Hu8 & Hsync & Hcrc).
  rewrite radarTask_frame by done. unfold completed, frame_done.
  cbn [buf idx]. rewrite decide_True by done.
  by rewrite (proj2 (crc_ok_spec frame Hlen Hu8) Hcrc).
Qed.

(** A frame with a wrong trailing byte read from the idle state. *)
Lemma radarTask_bad_frame s frame :
  wf s -> idx s = 0%nat ->
  length frame = PKT_LEN -> Forall is_u8 frame ->
  frame !! 0%nat = Some PKT_SYNC ->
  frame !! 17%nat <> Some (spec_crc8 (payload frame)) ->
  radarTask s frame =
  Some (State frame 0 (lastX s) (lastY s) (lastZ s) (poseValid s), []).
Proof.
  intros Hwf Hidx Hlen Hu8 Hsync Hcrc.
  rewrite radarTask_frame by done. unfold completed, frame_done.
  cbn [buf idx]. rewrite decide_True by done.
  by rewrite (crc_ok_false_spec frame Hlen Hu8 Hcrc).
Qed.

Lemma encode_valid x y z sd : valid_frame (encode x y z sd).
Proof.
  unfold valid_frame, encode. repeat split.
  - constructor; [unfold is_u8; lia|].
    apply Forall_app_2; [apply payload_of_u8|].
    constructor; [|done]. apply spec_crc8_u8, payload_of_u8.
Qed.

Lemma decode_encode x y z sd :
  is_u32 x -> is_u32 y -> is_u32 z -> is_u32 sd ->
  decode (encode x y z sd) =
  PositionMeasurement x y z sd MeasurementSourceLocationService.
Proof.
  intros Hx Hy Hz Hsd. unfold decode, encode, load_f32.
  cbn -[Z.pow Z.div Z.modulo spec_crc8].
  by rewrite !f32_of_bytes_f32_bytes.
Qed.

Ltac solve_u8 := repeat first [constructor | unfold is_u8, is_u32; lia].

(** C1 (round trip).  For every quadruple of float32 patterns
    [(x, y, z, stdDev)], the 18 bytes of its wire encoding (sync byte
    0xA5, the four values little endian, the CRC-8 of bytes 1..16 last),
    read one at a time from any idle state (cursor 0), make the task hand
    out exactly one measurement, whose fields are [x], [y], [z], [stdDev]
    bit for bit; the cache then holds [x], [y], [z] and the flag is 1. *)
Theorem roundtrip_encode_decode s x y z stdDev :
  wf s -> idx s = 0%nat ->
  is_u32 x -> is_u32 y -> is_u32 z -> is_u32 stdDev ->
  length (encode x y z stdDev) = 18%nat /\
  radarTask s (encode x y z stdDev) =
  Some (State (encode x y z stdDev) 0 x y z 1,
        [PositionMeasurement x y z stdDev MeasurementSourceLocationService]).
Proof.
  intros Hwf Hidx Hx Hy Hz Hsd. split; [done|].
  rewrite radarTask_valid_frame by (done || apply encode_valid).
  by rewrite decode_encode.
Qed.

Lemma roundtrip_encode_decode_witness :
  radarTask (init_state (replicate 18 0))
            (encode 0x3F800000 0x40000000 0x40400000 0x3F800000) =
  Some (State [0xA5; 0; 0; 0x80; 0x3F; 0; 0; 0; 0x40; 0; 0; 0x40; 0x40;
               0; 0; 0x80; 0x3F; 0xD5]
              0 0x3F800000 0x40000000 0x40400000 1,
        [PositionMeasurement 0x3F800000 0x40000000 0x40400000 0x3F800000
                             MeasurementSourceLocationService]).
Proof.
  apply (roundtrip_encode_decode (init_state (replicate 18 0))
           0x3F800000 0x40000000 0x40400000 0x3F800000);
    [reflexivity | reflexivity | unfold is_u32; lia ..].
Defined.

(** C2 (CRC-8).  On the 16 payload bytes of a frame (the call
    [crc8_maxim(&buf[1], PKT_LEN - 2)]) the helper returns exactly the
    value of the bit-by-bit procedure of the specification: start from
    0x00 and, per byte, eight times: mix = (crc XOR byte) AND 1, crc
    shifted right by one, crc XOR 0x8C when mix is set, byte shifted right
    by one. *)
Theorem crc8_maxim_computes_spec_crc8 (frame : list Z) :
  length frame = PKT_LEN -> Forall is_u8 frame ->
  crc8_maxim (drop 1 frame) (PKT_LEN - 2) = spec_crc8 (payload frame).
Proof.
  intros Hlen Hu8. unfold payload. apply crc8_maxim_spec.
  - rewrite length_drop, Hlen. unfold PKT_LEN. simpl. lia.
  - by apply Forall_drop.
Qed.

Lemma crc8_maxim_computes_spec_crc8_witness :
  crc8_maxim [0; 0; 0x80; 0x3F; 0; 0; 0; 0x40; 0; 0; 0x40; 0x40;
              0; 0; 0x80; 0x3F; 0xD5] 16 = 0xD5.
Proof.
  apply (crc8_maxim_computes_spec_crc8
           [0xA5; 0; 0; 0x80; 0x3F; 0; 0; 0; 0x40; 0; 0; 0x40; 0x40;
            0; 0; 0x80; 0x3F; 0xD5]); [reflexivity | solve_u8].
Defined.

(** C3 (checksum mismatch).  A completed frame (sync byte first, 18
    bytes) whose byte 17 differs from the CRC-8 of its bytes 1..16 is
    dropped: nothing is handed to the estimator, [lastX], [lastY],
    [lastZ] and [poseValid] keep their values, the cursor is back at 0
    and the task is scanning for a sync byte again (a byte other than
    0xA5 leaves the state as it is). *)
Theorem checksum_mismatch_discards_frame s (frame : list Z) :
  wf s -> idx s = 0%nat ->
  length frame = 18%nat -> Forall is_u8 frame ->
  frame !! 0%nat = Some 0xA5 ->
  frame !! 17%nat <> Some (spec_crc8 (payload frame)) ->
  exists s',
    radarTask s frame = Some (s', []) /\
    lastX s' = lastX s /\ lastY s' = lastY s /\ lastZ s' = lastZ s /\
    poseValid s' = poseValid s /\
    idx s' = 0%nat /\
    forall byte, byte <> 0xA5 -> radar_step s' byte = Some (s', None).
Proof.
  intros Hwf Hidx Hlen Hu8 Hsync Hcrc. eexists.
  split; [by apply radarTask_bad_frame|]. cbn [lastX lastY lastZ poseValid idx].
  repeat split. intros byte Hb. by apply radar_step_idle.
Qed.

Lemma checksum_mismatch_discards_frame_witness :
  exists s',
    radarTask (init_state (replicate 18 0))
      [0xA5; 0; 0; 0x80; 0x3F; 0; 0; 0; 0x40; 0; 0; 0x40; 0x40;
       0; 0; 0x80; 0x3F; 0xD4] = Some (s', []) /\
    lastX s' = 0 /\ lastY s' = 0 /\ lastZ s' = 0 /\ poseValid s' = 0 /\
    idx s' = 0%nat /\
    forall byte, byte <> 0xA5 -> radar_step s' byte = Some (s', None).
Proof.
  apply (checksum_mismatch_discards_frame (init_state (replicate 18 0))
           [0xA5; 0; 0; 0x80; 0x3F; 0; 0; 0; 0x40; 0; 0; 0x40; 0x40;
            0; 0; 0x80; 0x3F; 0xD4]);
    [reflexivity | reflexivity | reflexivity | solve_u8 | reflexivity
    | vm_compute; discriminate].
Defined.

(** C4 (decoding).  For a frame that passes the check, the measurement
    handed out has [x], [y], [z], [stdDev] equal to the little-endian
    32 bit patterns of frame bytes 1..4, 5..8, 9..12 and 13..16, in this
    order.  Nothing is required of the patterns: NaN, infinities and all
    other values go through as they are. *)
Theorem decode_little_endian_fields s (frame : list Z) :
  wf s -> idx s = 0%nat -> valid_frame frame ->
  exists s',
    radarTask s frame =
    Some (s',
          [PositionMeasurement
             (f32_of_bytes (frame !!! 1%nat) (frame !!! 2%nat)
                           (frame !!! 3%nat) (frame !!! 4%nat))
             (f32_of_bytes (frame !!! 5%nat) (frame !!! 6%nat)
                           (frame !!! 7%nat) (frame !!! 8%nat))
             (f32_of_bytes (frame !!! 9%nat) (frame !!! 10%nat)
                           (frame !!! 11%nat) (frame !!! 12%nat))
             (f32_of_bytes (frame !!! 13%nat) (frame !!! 14%nat)
                           (frame !!! 15%nat) (frame !!! 16%nat))
             MeasurementSourceLocationService]).
Proof.
  intros Hwf Hidx Hvalid. eexists.
  rewrite radarTask_valid_frame by done. do 3 f_equal.
  unfold decode, load_f32. by rewrite !lookup_total_drop.
Qed.

(** A frame carrying a quiet NaN, both infinities and 0.5. *)
Lemma decode_little_endian_fields_witness :
  f32_is_nan 0x7FC00000 = true /\ f32_is_inf 0x7F800000 = true /\
  f32_is_inf 0xFF800000 = true /\
  exists s',
    radarTask (init_state (replicate 18 0))
      [0xA5; 0; 0; 0xC0; 0x7F; 0; 0; 0x80; 0x7F; 0; 0; 0x80; 0xFF;
       0; 0; 0; 0x3F; 0x33] =
    Some (s', [PositionMeasurement 0x7FC00000 0x7F800000 0xFF800000
                 0x3F000000 MeasurementSourceLocationService]).
Proof.
  repeat (split; [reflexivity|]).
  apply (decode_little_endian_fields (init_state (replicate 18 0))
           [0xA5; 0; 0; 0xC0; 0x7F; 0; 0; 0x80; 0x7F; 0; 0; 0x80; 0xFF;
            0; 0; 0; 0x3F; 0x33]);
    [reflexivity | reflexivity |].
  split; [reflexivity|]. split; [solve_u8|]. split; [reflexivity|].
  vm_compute. reflexivity.
Defined.

(** C5 (assembler, one byte).  With the cursor at 0 a byte other than
    0xA5 is dropped: the whole state is unchanged and nothing is
    reported; the byte 0xA5 is stored at position 0 and the cursor
    becomes 1.  With 0 < cursor < 18 the statement [buf[idx++] = byte]
    runs whatever the byte is: it is stored at index cursor and the
    cursor is incremented by one; the turn then continues with the
    completion test, which keeps the array and, as long as the cursor is
    still below 18, is the identity. *)
Theorem assembler_step_cases s byte :
  wf s ->
  (idx s = 0%nat -> byte <> 0xA5 -> radar_step s byte = Some (s, None)) /\
  (idx s = 0%nat -> byte = 0xA5 ->
   exists s',
     radar_step s byte = Some (s', None) /\
     buf s' = <[0%nat := byte]> (buf s) /\ buf s' !! 0%nat = Some byte /\
     idx s' = 1%nat /\ cache s' = cache s) /\
  ((0 < idx s < 18)%nat ->
   exists s1,
     buf_store s byte = Some s1 /\
     buf s1 = <[idx s := byte]> (buf s) /\ buf s1 !! idx s = Some byte /\
     idx s1 = S (idx s) /\ cache s1 = cache s /\
     radar_step s byte = Some (frame_done s1) /\
     buf (fst (frame_done s1)) = buf s1 /\
     ((idx s1 < 18)%nat -> frame_done s1 = (s1, None))).
Proof.
  unfold wf. intros Hwf. split; [|split].
  - intros Hidx Hb. by apply radar_step_idle.
  - intros Hidx ->. eexists. split; [by apply radar_step_sync|].
    cbn [buf idx]. repeat split.
    apply list_lookup_insert_eq. rewrite Hwf. unfold PKT_LEN. lia.
  - intros Hidx. eexists. split.
    { unfold buf_store. by rewrite decide_True by (unfold PKT_LEN; lia). }
    cbn [buf idx]. repeat split.
    + apply list_lookup_insert_eq. rewrite Hwf. unfold PKT_LEN. lia.
    + by apply radar_step_store.
    + unfold frame_done. cbn [buf idx].
      destruct (decide _); [destruct (crc_ok _)|]; done.
    + intros Hlt. apply frame_done_partial. cbn [idx]. unfold PKT_LEN. lia.
Qed.

Lemma assembler_step_cases_witness :
  radar_step (State (replicate 18 0) 0 0 0 0 0) 0x42 =
    Some (State (replicate 18 0) 0 0 0 0 0, None) /\
  radar_step (State (replicate 18 0) 0 0 0 0 0) 0xA5 =
    Some (State (0xA5 :: replicate 17 0) 1 0 0 0 0, None) /\
  radar_step (State (replicate 18 0) 5 0 0 0 0) 0xA5 =
    Some (State (replicate 5 0 ++ 0xA5 :: replicate 12 0) 6 0 0 0 0, None).
Proof.
  split; [|split].
  - destruct (assembler_step_cases (State (replicate 18 0) 0 0 0 0 0) 0x42
                eq_refl) as (H & _).
    apply H; [reflexivity | discriminate].
  - destruct (assembler_step_cases (State (replicate 18 0) 0 0 0 0 0) 0xA5
                eq_refl) as (_ & H & _).
    destruct (H eq_refl eq_refl) as (s' & -> & Hbuf & _ & Hidx & Hc).
    destruct s'. cbn in Hbuf, Hidx, Hc. by injection Hc as -> -> -> ->; subst.
  - destruct (assembler_step_cases (State (replicate 18 0) 5 0 0 0 0) 0xA5
                eq_refl) as (_ & _ & H).
    destruct H as (s1 & _ & Hbuf & _ & Hidx & Hc & -> & _ & Hdone);
      [cbn; lia|].
    rewrite Hdone by (rewrite Hidx; cbn; lia).
    destruct s1. cbn in Hbuf, Hidx, Hc. by injection Hc as -> -> -> ->; subst.
Defined.

(** ** Single-bit errors *)

Lemma flip_ne v (k : nat) : Z.lxor v (Z.shiftl 1 (Z.of_nat k)) <> v.
Proof.
  intros H. rewrite <- (Z.lxor_0_r v) in H at 2. apply lxor_cancel_l in H.
  rewrite Z.shiftl_1_l in H.
  by apply (Z.pow_nonzero 2 (Z.of_nat k)); [lia..|].
Qed.

Lemma flip_u8 v (k : nat) :
  is_u8 v -> (k < 8)%nat -> is_u8 (Z.lxor v (Z.shiftl 1 (Z.of_nat k))).
Proof.
  intros Hv Hk. apply lxor_u8; [done|].
  do 8 (destruct k as [|k]; [by vm_compute|]). lia.
Qed.

(** C6 (single-bit errors).  In a valid frame, inverting any one bit of
    any of the bytes 1..17 makes the comparison of the computed CRC-8
    with byte 17 fail, and reading the damaged frame hands out no
    measurement (cache and flag keep their values). *)
Theorem single_bit_flip_rejected s (frame : list Z) (i k : nat) :
  wf s -> idx s = 0%nat -> valid_frame frame ->
  (1 <= i <= 17)%nat -> (k < 8)%nat ->
  crc_ok (flip_bit frame i k) = false /\
  radarTask s (flip_bit frame i k) =
  Some (State (flip_bit frame i k) 0
              (lastX s) (lastY s) (lastZ s) (poseValid s), []).
Proof.
  intros Hwf Hidx (Hlen & Hu8 & Hsync & Hcrc) Hi Hk.
  assert (Hvi : frame !! i = Some (frame !!! i))
    by (apply list_lookup_lookup_total_lt; lia).
  set (v' := Z.lxor (frame !!! i) (Z.shiftl 1 (Z.of_nat k))).
  assert (Hv' : is_u8 v').
  { apply flip_u8; [|done]. by eapply Forall_lookup_1. }
  assert (Hlen' : length (flip_bit frame i k) = PKT_LEN)
    by (unfold flip_bit; by rewrite length_insert).
  assert (Hu8' : Forall is_u8 (flip_bit frame i k))
    by (by apply Forall_insert).
  assert (Hbad : flip_bit frame i k !! 17%nat
                 <> Some (spec_crc8 (payload (flip_bit frame i k)))).
  { unfold flip_bit, payload. fold v'.
    destruct (decide (i = 17%nat)) as [->|Hne].
    - rewrite list_lookup_insert_eq by lia.
      rewrite drop_insert_ge, take_insert_ge by lia.
      fold (payload frame). intros [= H]. unfold v' in H.
      rewrite (list_lookup_total_correct _ _ _ Hcrc) in H.
      by apply flip_ne in H.
    - rewrite list_lookup_insert_ne, Hcrc by done.
      rewrite drop_insert_ge, take_insert_lt by lia.
      fold (payload frame). intros [= H]. symmetry in H. revert H.
      assert (Hp : Forall is_u8 (payload frame))
        by (by apply Forall_take, Forall_drop).
      unfold spec_crc8.
      rewrite <- !foldl_crc8_spec
        by (done || apply is_u8_0 || by apply Forall_insert).
      apply (foldl_crc8_insert _ _ _ (frame !!! i)); [apply is_u8_0|done..| |].
      + unfold payload. rewrite lookup_take_lt, lookup_drop by lia.
        by replace (1 + (i - 1))%nat with i by lia.
      + intros H. symmetry in H. by apply flip_ne in H. }
  split; [by apply crc_ok_false_spec|].
  apply radarTask_bad_frame; try done.
  unfold flip_bit. by rewrite list_lookup_insert_ne by lia.
Qed.

Lemma single_bit_flip_rejected_witness :
  crc_ok [0xA5; 0; 0; 0x80; 0x3F; 0; 0; 0; 0x44; 0; 0; 0x40; 0x40;
          0; 0; 0x80; 0x3F; 0xD5] = false /\
  radarTask (init_state (replicate 18 0))
    [0xA5; 0; 0; 0x80; 0x3F; 0; 0; 0; 0x44; 0; 0; 0x40; 0x40;
     0; 0; 0x80; 0x3F; 0xD5] =
  Some (State [0xA5; 0; 0; 0x80; 0x3F; 0; 0; 0; 0x44; 0; 0; 0x40; 0x40;
               0; 0; 0x80; 0x3F; 0xD5] 0 0 0 0 0, []).
Proof.
  apply (single_bit_flip_rejected (init_state (replicate 18 0))
           [0xA5; 0; 0; 0x80; 0x3F; 0; 0; 0; 0x40; 0; 0; 0x40; 0x40;
            0; 0; 0x80; 0x3F; 0xD5] 8 2);
    [reflexivity | reflexivity | | lia | lia].
  split; [reflexivity|]. split; [solve_u8|]. split; [reflexivity|].
  vm_compute. reflexivity.
Defined.

(** C7 (cursor reset).  When the byte stored brings the cursor to 18,
    the same turn sets it back to 0, whether the frame passes the check
    (a measurement is handed out) or fails it (none is); the next byte is
    then treated as at the start: dropped unless it is the sync byte,
    which goes to position 0. *)
Theorem cursor_reset_after_full_frame s byte :
  wf s -> idx s = 17%nat ->
  exists s1 s' out,
    buf_store s byte = Some s1 /\ idx s1 = 18%nat /\
    frame_done s1 = (s', out) /\
    radar_step s byte = Some (s', out) /\
    idx s' = 0%nat /\
    (crc_ok (buf s1) = true -> out = Some (decode (buf s1))) /\
    (crc_ok (buf s1) = false -> out = None) /\
    (forall next, next <> 0xA5 -> radar_step s' next = Some (s', None)) /\
    (exists s'', radar_step s' 0xA5 = Some (s'', None) /\
                 idx s'' = 1%nat /\ buf s'' !! 0%nat = Some 0xA5).
Proof.
  unfold wf. intros Hwf Hidx.
  exists (State (<[17%nat := byte]> (buf s)) 18
                (lastX s) (lastY s) (lastZ s) (poseValid s)).
  assert (Hstore : buf_store s byte =
            Some (State (<[17%nat := byte]> (buf s)) 18
                        (lastX s) (lastY s) (lastZ s) (poseValid s))).
  { unfold buf_store. rewrite Hidx.
    by rewrite decide_True by (unfold PKT_LEN; lia). }
  assert (Hstep : radar_step s byte =
            Some (frame_done (State (<[17%nat := byte]> (buf s)) 18
                        (lastX s) (lastY s) (lastZ s) (poseValid s)))).
  { rewrite radar_step_store by (rewrite Hidx; unfold PKT_LEN; lia).
    by rewrite Hidx. }
  rewrite Hstore, Hstep, frame_done_full by reflexivity.
  cbn [buf idx lastX lastY lastZ poseValid].
  assert (Hnext : forall s', idx s' = 0%nat -> length (buf s') = PKT_LEN ->
            (forall next, next <> 0xA5 -> radar_step s' next = Some (s', None)) /\
            (exists s'', radar_step s' 0xA5 = Some (s'', None) /\
                         idx s'' = 1%nat /\ buf s'' !! 0%nat = Some 0xA5)).
  { intros s' Hidx' Hlen'. split.
    - intros next Hnext. by apply radar_step_idle.
    - eexists. split; [by apply radar_step_sync|]. cbn [buf idx].
      split; [reflexivity|]. apply list_lookup_insert_eq. rewrite Hlen'.
      unfold PKT_LEN. lia. }
  destruct (crc_ok (<[17%nat := byte]> (buf s))) eqn:Hcrc.
  - eexists _, _. do 5 (split; [reflexivity|]).
    split; [reflexivity|]. split; [discriminate|].
    apply Hnext; cbn [buf idx]; [reflexivity|by rewrite length_insert].
  - eexists _, _. do 5 (split; [reflexivity|]).
    split; [discriminate|]. split; [reflexivity|].
    apply Hnext; cbn [buf idx]; [reflexivity|by rewrite length_insert].
Qed.

(** The last byte of a valid frame, and of a damaged one. *)
Lemma cursor_reset_after_full_frame_witness :
  (exists s1 s' out,
     buf_store (State [0xA5; 0; 0; 0x80; 0x3F; 0; 0; 0; 0x40; 0; 0; 0x40;
                       0x40; 0; 0; 0x80; 0x3F; 0] 17 0 0 0 0) 0xD5 = Some s1 /\
     idx s1 = 18%nat /\ frame_done s1 = (s', out) /\ idx s' = 0%nat /\
     is_Some out) /\
  (exists s1 s' out,
     buf_store (State [0xA5; 0; 0; 0x80; 0x3F; 0; 0; 0; 0x40; 0; 0; 0x40;
                       0x40; 0; 0; 0x80; 0x3F; 0] 17 0 0 0 0) 0xD4 = Some s1 /\
     idx s1 = 18%nat /\ frame_done s1 = (s', out) /\ idx s' = 0%nat /\
     out = None).
Proof.
  split.
  - destruct (cursor_reset_after_full_frame
                (State [0xA5; 0; 0; 0x80; 0x3F; 0; 0; 0; 0x40; 0; 0; 0x40;
                        0x40; 0; 0; 0x80; 0x3F; 0] 17 0 0 0 0) 0xD5
                eq_refl eq_refl)
      as (s1 & s' & out & Hst & H18 & Hdone & _ & H0 & Hpass & _).
    exists s1, s', out. repeat split; try done.
    injection Hst as <-. by rewrite Hpass by (vm_compute; reflexivity).
  - destruct (cursor_reset_after_full_frame
                (State [0xA5; 0; 0; 0x80; 0x3F; 0; 0; 0; 0x40; 0; 0; 0x40;
                        0x40; 0; 0; 0x80; 0x3F; 0] 17 0 0 0 0) 0xD4
                eq_refl eq_refl)
      as (s1 & s' & out & Hst & H18 & Hdone & _ & H0 & _ & Hfail & _).
    exists s1, s', out. repeat split; try done.
    injection Hst as <-. by rewrite Hfail by (vm_compute; reflexivity).
Defined.

(** C8 (resynchronisation).  Bytes other than 0xA5 read from an idle
    state before a valid frame change nothing: the run over noise and
    frame ends in the same state and hands out the same measurements as
    the run over the frame alone, namely the single measurement decoded
    from the frame. *)
Theorem noise_prefix_ignored s (noise frame : list Z) :
  wf s -> idx s = 0%nat ->
  Forall (fun b => b <> 0xA5) noise -> valid_frame frame ->
  radarTask s (noise ++ frame) = radarTask s frame /\
  exists s', radarTask s frame = Some (s', [decode frame]).
Proof.
  intros Hwf Hidx Hnoise Hvalid. split.
  - rewrite radarTask_app, radarTask_noise by done. cbn [mbind option_bind].
    by destruct (radarTask s frame) as [[s2 o2]|].
  - eexists. by apply radarTask_valid_frame.
Qed.

Lemma noise_prefix_ignored_witness :
  radarTask (init_state (replicate 18 0))
    ([0x00; 0xFF; 0x5A; 0xD5] ++
     [0xA5; 0; 0; 0x80; 0x3F; 0; 0; 0; 0x40; 0; 0; 0x40; 0x40;
      0; 0; 0x80; 0x3F; 0xD5]) =
  radarTask (init_state (replicate 18 0))
    [0xA5; 0; 0; 0x80; 0x3F; 0; 0; 0; 0x40; 0; 0; 0x40; 0x40;
     0; 0; 0x80; 0x3F; 0xD5] /\
  exists s',
    radarTask (init_state (replicate 18 0))
      [0xA5; 0; 0; 0x80; 0x3F; 0; 0; 0; 0x40; 0; 0; 0x40; 0x40;
       0; 0; 0x80; 0x3F; 0xD5] =
    Some (s', [PositionMeasurement 0x3F800000 0x40000000 0x40400000
                 0x3F800000 MeasurementSourceLocationService]).
Proof.
  apply (noise_prefix_ignored (init_state (replicate 18 0))
           [0x00; 0xFF; 0x5A; 0xD5]
           [0xA5; 0; 0; 0x80; 0x3F; 0; 0; 0; 0x40; 0; 0; 0x40; 0x40;
            0; 0; 0x80; 0x3F; 0xD5]);
    [reflexivity | reflexivity | repeat constructor; discriminate |].
  split; [reflexivity|]. split; [solve_u8|]. split; [reflexivity|].
  vm_compute. reflexivity.
Defined.

(** C9 (memory safety).  Whatever bytes are read from the start of the
    task, no store leaves the array (the run is defined), and the state
    reached has the cursor below 18 and the array at its 18 bytes; the
    next turn, on any byte, is again defined, leaves the array as it is or
    writes the byte at index cursor, and, unless it hands out a
    measurement, leaves [lastX], [lastY], [lastZ], [poseValid] as they
    are. *)
Theorem buffer_writes_in_bounds (junk bytes : list Z) :
  length junk = PKT_LEN ->
  exists s outs,
    radarTask (init_state junk) bytes = Some (s, outs) /\
    (idx s < 18)%nat /\ length (buf s) = 18%nat /\
    forall byte, exists s' out,
      radar_step s byte = Some (s', out) /\
      (buf s' = buf s \/ buf s' = <[idx s := byte]> (buf s)) /\
      (out = None -> cache s' = cache s).
Proof.
  intros Hjunk.
  destruct (radarTask_inv bytes (init_state junk))
    as (s & outs & Hrun & Hwf & Hidx & _);
    [done|cbn; unfold PKT_LEN; lia|].
  exists s, outs. repeat split; [done..|]. intros byte.
  destruct (radar_step_inv s byte Hwf Hidx)
    as (s' & out & Hstep & _ & _ & Hbuf & Hcache).
  exists s', out. repeat split; [done..|]. by intros ->.
Qed.

Lemma buffer_writes_in_bounds_witness :
  exists s outs,
    radarTask (init_state (replicate 18 0xA5))
              (replicate 40 0xA5 ++ [0x00; 0xFF]) = Some (s, outs) /\
    (idx s < 18)%nat /\ length (buf s) = 18%nat /\
    forall byte, exists s' out,
      radar_step s byte = Some (s', out) /\
      (buf s' = buf s \/ buf s' = <[idx s := byte]> (buf s)) /\
      (out = None -> cache s' = cache s).
Proof.
  apply (buffer_writes_in_bounds (replicate 18 0xA5)
           (replicate 40 0xA5 ++ [0x00; 0xFF])).
  reflexivity.
Defined.

(** C10 (validity flag).  [poseValid] is 0 when the task starts; after
    any bytes it is 1 exactly when at least one measurement has been
    handed out, that is once a first frame has passed the check; and once
    it is 1 it is still 1 after any further bytes. *)
Theorem poseValid_latches (junk bytes more : list Z) :
  length junk = PKT_LEN ->
  poseValid (init_state junk) = 0 /\
  exists s outs,
    radarTask (init_state junk) bytes = Some (s, outs) /\
    poseValid s = (if decide (outs = []) then 0 else 1) /\
    exists s' outs',
      radarTask s more = Some (s', outs') /\
      (poseValid s = 1 -> poseValid s' = 1).
Proof.
  intros Hjunk. split; [done|].
  destruct (radarTask_inv bytes (init_state junk))
    as (s & outs & Hrun & Hwf & Hidx & Hpv);
    [done|cbn; unfold PKT_LEN; lia|].
  destruct (radarTask_inv more s Hwf Hidx)
    as (s' & outs' & Hrun' & _ & _ & Hpv').
  exists s, outs. repeat split; [done..|].
  exists s', outs'. split; [done|]. intros H1. rewrite Hpv'.
  by destruct (decide (outs' = [])).
Qed.

(** A valid frame, then a damaged frame and noise: the flag stays 1. *)
Lemma poseValid_latches_witness :
  exists s outs,
    radarTask (init_state (replicate 18 0))
      [0xA5; 0; 0; 0x80; 0x3F; 0; 0; 0; 0x40; 0; 0; 0x40; 0x40;
       0; 0; 0x80; 0x3F; 0xD5] = Some (s, outs) /\
    poseValid s = 1 /\
    exists s' outs',
      radarTask s
        [0xA5; 0; 0; 0x80; 0x3F; 0; 0; 0; 0x40; 0; 0; 0x40; 0x40;
         0; 0; 0x80; 0x3F; 0xD4; 0x17; 0x2A] = Some (s', outs') /\
      outs' = [] /\ poseValid s' = 1.
Proof.
  destruct (poseValid_latches (replicate 18 0)
              [0xA5; 0; 0; 0x80; 0x3F; 0; 0; 0; 0x40; 0; 0; 0x40; 0x40;
               0; 0; 0x80; 0x3F; 0xD5]
              [0xA5; 0; 0; 0x80; 0x3F; 0; 0; 0; 0x40; 0; 0; 0x40; 0x40;
               0; 0; 0x80; 0x3F; 0xD4; 0x17; 0x2A] eq_refl)
    as (_ & s & outs & Hrun & Hpv & s' & outs' & Hrun' & Hkeep).
  vm_compute in Hrun. injection Hrun as <- <-.
  eexists _, _. split; [vm_compute; reflexivity|]. split; [reflexivity|].
  vm_compute in Hrun'. injection Hrun' as <- <-.
  eexists _, _. split; [vm_compute; reflexivity|]. split; reflexivity.
Defined.

(** ** Further properties of the CRC-8 helper *)

Lemma crc8_bit_u8 cb : is_u8 (fst (crc8_bit cb)).
Proof.
  destruct cb as [c b]. unfold crc8_bit. cbn [fst].
  destruct (_ =? 0); unfold u8, is_u8; apply Z.mod_pos_bound; lia.
Qed.

Lemma crc8_byte_is_byte c b : is_u8 (crc8_byte c b).
Proof.
  unfold crc8_byte.
  change (Nat.iter 8 crc8_bit (c, b))
    with (crc8_bit (Nat.iter 7 crc8_bit (c, b))).
  apply crc8_bit_u8.
Qed.


(** X2.  [crc8_maxim d n] reads [d[0] .. d[n-1]] only: two memories that
    agree on their first [n] bytes have the same checksum. *)
Theorem crc8_maxim_prefix_only (d1 d2 : list Z) (n : nat) :
  take n d1 = take n d2 -> crc8_maxim d1 n = crc8_maxim d2 n.
Proof.
  unfold crc8_maxim. induction n as [|n IH]; intros H; [done|].
  rewrite seq_S, !foldl_app. cbn [foldl Nat.add].
  rewrite IH.
  - f_equal. rewrite !list_lookup_total_alt.
    by rewrite <- (lookup_take_lt d1 (S n) n), <- (lookup_take_lt d2 (S n) n), H
      by lia.
  - apply (f_equal (take n)) in H. rewrite !take_take in H.
    by rewrite Nat.min_l in H by lia.
Qed.

Lemma crc8_maxim_prefix_only_witness :
  crc8_maxim [0x12; 0x34; 0x56; 0x78] 2 = crc8_maxim [0x12; 0x34; 0xFF] 2.
Proof.
  apply (crc8_maxim_prefix_only [0x12; 0x34; 0x56; 0x78] [0x12; 0x34; 0xFF] 2).
  reflexivity.
Defined.

Lemma crc8_bit_no_data c : crc8_bit (c, 0) = (crc8_shift c, 0).
Proof. reflexivity. Qed.

Lemma iter_crc8_bit_no_data (n : nat) c :
  Nat.iter n crc8_bit (c, 0) = (Nat.iter n crc8_shift c, 0).
Proof.
  induction n as [|n IH]; [done|].
  rewrite !Nat.iter_succ, IH. apply crc8_bit_no_data.
Qed.

Lemma crc8_shift_u8 c : is_u8 (crc8_shift c).
Proof. apply crc8_bit_u8. Qed.

Lemma crc8_shift_step_lxor a b :
  is_u8 a -> is_u8 b ->
  crc8_shift (Z.lxor a b) = Z.lxor (crc8_shift a) (crc8_shift b).
Proof.
  intros Ha Hb.
  assert (H : all_u8_2 (fun a b =>
              crc8_shift (Z.lxor a b)
              =? Z.lxor (crc8_shift a) (crc8_shift b)) = true)
    by (vm_compute; reflexivity).
  by apply Z.eqb_eq, (all_u8_2_spec _ H a b Ha Hb).
Qed.

Lemma iter_crc8_shift_lxor (n : nat) : forall a b,
  is_u8 a -> is_u8 b ->
  Nat.iter n crc8_shift (Z.lxor a b)
  = Z.lxor (Nat.iter n crc8_shift a) (Nat.iter n crc8_shift b).
Proof.
  induction n as [|n IH]; intros a b Ha Hb; [done|].
  rewrite !Nat.iter_succ_r, crc8_shift_step_lxor by done.
  apply IH; apply crc8_shift_u8.
Qed.

Lemma crc8_shift_lxor a b :
  is_u8 a -> is_u8 b ->
  crc8_byte (Z.lxor a b) 0 = Z.lxor (crc8_byte a 0) (crc8_byte b 0).
Proof.
  intros Ha Hb. unfold crc8_byte. rewrite !iter_crc8_bit_no_data.
  cbn [fst]. by apply iter_crc8_shift_lxor.
Qed.

Lemma lxor_swap_inner a b c d :
  Z.lxor (Z.lxor a b) (Z.lxor c d) = Z.lxor (Z.lxor a c) (Z.lxor b d).
Proof.
  rewrite !Z.lxor_assoc. f_equal.
  by rewrite <- !Z.lxor_assoc, (Z.lxor_comm b c).
Qed.

Lemma crc8_byte_linear c1 b1 c2 b2 :
  is_u8 c1 -> is_u8 b1 -> is_u8 c2 -> is_u8 b2 ->
  crc8_byte (Z.lxor c1 c2) (Z.lxor b1 b2)
  = Z.lxor (crc8_byte c1 b1) (crc8_byte c2 b2).
Proof.
  intros Hc1 Hb1 Hc2 Hb2.
  rewrite (crc8_byte_lxor (Z.lxor c1 c2)) by (by apply lxor_u8).
  rewrite (crc8_byte_lxor c1 b1), (crc8_byte_lxor c2 b2) by done.
  rewrite lxor_swap_inner. apply crc8_shift_lxor; by apply lxor_u8.
Qed.

Lemma foldl_crc8_linear (l1 : list Z) : forall (l2 : list Z) c1 c2,
  length l1 = length l2 -> Forall is_u8 l1 -> Forall is_u8 l2 ->
  is_u8 c1 -> is_u8 c2 ->
  foldl crc8_byte (Z.lxor c1 c2) (xor_bytes l1 l2)
  = Z.lxor (foldl crc8_byte c1 l1) (foldl crc8_byte c2 l2).
Proof.
  induction l1 as [|b1 l1 IH]; intros [|b2 l2] c1 c2 Hlen H1 H2 Hc1 Hc2;
    try done.
  inversion_clear H1 as [|? ? Hb1 H1']. inversion_clear H2 as [|? ? Hb2 H2'].
  cbn [xor_bytes zip_with foldl]. fold (xor_bytes l1 l2).
  rewrite crc8_byte_linear by done.
  apply IH; [by injection Hlen|done|done|by apply crc8_byte_u8..].
Qed.

Lemma crc8_maxim_xor_bytes (d1 d2 : list Z) (n : nat) :
  (n <= length d1)%nat -> (n <= length d2)%nat ->
  Forall is_u8 d1 -> Forall is_u8 d2 ->
  crc8_maxim (xor_bytes d1 d2) n
  = Z.lxor (crc8_maxim d1 n) (crc8_maxim d2 n).
Proof.
  intros Hn1 Hn2 H1 H2.
  rewrite !crc8_maxim_take
    by (done || (unfold xor_bytes; rewrite length_zip_with; lia)).
  unfold xor_bytes. rewrite zip_with_take.
  fold (xor_bytes (take n d1) (take n d2)).
  rewrite <- (Z.lxor_0_r 0) at 1.
  apply foldl_crc8_linear;
    [rewrite !length_take; lia|by apply Forall_take|by apply Forall_take
    |apply is_u8_0..].
Qed.

(** X3.  The checksum is linear over exclusive or: the CRC of the
    bytewise exclusive or of two byte arrays is the exclusive or of
    their CRCs. *)
Theorem crc8_maxim_linear (d1 d2 : list Z) (n : nat) :
  (n <= length d1)%nat -> (n <= length d2)%nat ->
  Forall is_u8 d1 -> Forall is_u8 d2 ->
  crc8_maxim (xor_bytes d1 d2) n
  = Z.lxor (crc8_maxim d1 n) (crc8_maxim d2 n).
Proof. apply crc8_maxim_xor_bytes. Qed.

Lemma crc8_maxim_linear_witness :
  crc8_maxim (xor_bytes [0x12; 0x34; 0x56] [0xA5; 0x00; 0xFF]) 3
  = Z.lxor (crc8_maxim [0x12; 0x34; 0x56] 3) (crc8_maxim [0xA5; 0x00; 0xFF] 3).
Proof.
  apply (crc8_maxim_linear [0x12; 0x34; 0x56] [0xA5; 0x00; 0xFF] 3);
    [simpl; lia | simpl; lia | solve_u8 | solve_u8].
Defined.

Lemma crc8_byte_0_0 : crc8_byte 0 0 = 0.
Proof. by vm_compute. Qed.

Lemma crc8_byte_zero_iff c b :
  is_u8 c -> is_u8 b -> crc8_byte c b = 0 <-> b = c.
Proof.
  intros Hc Hb. rewrite crc8_byte_lxor by done. split.
  - intros H. rewrite <- crc8_byte_0_0 in H.
    apply crc8_shift_inj in H; [|by apply lxor_u8|apply is_u8_0].
    symmetry. by apply Z.lxor_eq.
  - intros ->. by rewrite Z.lxor_nilpotent, crc8_byte_0_0.
Qed.

(** X4.  Residue: over a byte array followed by one more byte, the
    checksum is 0 exactly when that last byte is the checksum of the
    array before it. *)
Theorem crc8_maxim_residue (d : list Z) (v : Z) :
  Forall is_u8 d -> is_u8 v ->
  crc8_maxim (d ++ [v]) (S (length d)) = 0 <-> v = crc8_maxim d (length d).
Proof.
  intros Hd Hv.
  rewrite !crc8_maxim_take by (rewrite ?length_app; simpl; lia).
  rewrite firstn_all.
  rewrite take_ge by (rewrite length_app; simpl; lia).
  rewrite foldl_app. cbn [foldl].
  apply crc8_byte_zero_iff; [|done]. apply foldl_crc8_u8; [apply is_u8_0|done].
Qed.

Lemma crc8_maxim_residue_witness :
  crc8_maxim ([0x31; 0x32; 0x33; 0x34; 0x35; 0x36; 0x37; 0x38; 0x39]
              ++ [0xA1]) 10 = 0.
Proof.
  apply (crc8_maxim_residue
           [0x31; 0x32; 0x33; 0x34; 0x35; 0x36; 0x37; 0x38; 0x39] 0xA1);
    [solve_u8 | solve_u8 | vm_compute; reflexivity].
Defined.

Lemma foldl_crc8_zeros (k : nat) : foldl crc8_byte 0 (replicate k 0) = 0.
Proof. induction k as [|k IH]; [done|]. simpl. by rewrite crc8_byte_0_0. Qed.

(** X5.  Zero bytes in front of the data do not show in the checksum
    (the register starts at 0): the CRC of [k] zero bytes followed by [n]
    bytes is the CRC of these [n] bytes, and the CRC of zero bytes alone
    is 0. *)
Theorem crc8_maxim_leading_zeros (d : list Z) (k n : nat) :
  (n <= length d)%nat ->
  crc8_maxim (replicate k 0 ++ d) (k + n) = crc8_maxim d n /\
  crc8_maxim (replicate k 0) k = 0.
Proof.
  intros Hn. split.
  - rewrite !crc8_maxim_take
      by (rewrite ?length_app, ?length_replicate; lia).
    rewrite take_app_ge, length_replicate by (rewrite length_replicate; lia).
    replace (k + n - k)%nat with n by lia.
    by rewrite foldl_app, foldl_crc8_zeros.
  - rewrite crc8_maxim_take by (rewrite length_replicate; lia).
    rewrite take_ge by (rewrite length_replicate; lia).
    apply foldl_crc8_zeros.
Qed.

Lemma crc8_maxim_leading_zeros_witness :
  crc8_maxim (replicate 5 0 ++ [0x31; 0x32; 0x33]) (5 + 3)
  = crc8_maxim [0x31; 0x32; 0x33] 3 /\
  crc8_maxim (replicate 5 0) 5 = 0.
Proof.
  apply (crc8_maxim_leading_zeros [0x31; 0x32; 0x33] 5 3). simpl. lia.
Defined.

Lemma byte_parity_lxor a b :
  is_u8 a -> is_u8 b ->
  byte_parity (Z.lxor a b) = xorb (byte_parity a) (byte_parity b).
Proof.
  intros Ha Hb.
  assert (H : all_u8_2 (fun a b =>
              eqb (byte_parity (Z.lxor a b))
                  (xorb (byte_parity a) (byte_parity b))) = true)
    by (vm_compute; reflexivity).
  by apply eqb_prop, (all_u8_2_spec _ H a b Ha Hb).
Qed.

Lemma byte_parity_crc8_shifts a :
  is_u8 a -> byte_parity (crc8_byte a 0) = byte_parity a.
Proof.
  intros Ha.
  assert (H : all_u8 (fun a =>
              eqb (byte_parity (crc8_byte a 0)) (byte_parity a)) = true)
    by (vm_compute; reflexivity).
  by apply eqb_prop, (all_u8_spec _ H a Ha).
Qed.

Lemma byte_parity_crc8_byte c b :
  is_u8 c -> is_u8 b ->
  byte_parity (crc8_byte c b) = xorb (byte_parity c) (byte_parity b).
Proof.
  intros Hc Hb. rewrite crc8_byte_lxor by done.
  rewrite byte_parity_crc8_shifts by (by apply lxor_u8).
  by apply byte_parity_lxor.
Qed.

Lemma foldl_crc8_parity (l : list Z) : forall c,
  is_u8 c -> Forall is_u8 l ->
  byte_parity (foldl crc8_byte c l) = xorb (byte_parity c) (bytes_parity l).
Proof.
  induction l as [|b l IH]; intros c Hc Hl.
  - simpl. by rewrite xorb_false_r.
  - inversion_clear Hl as [|? ? Hb Hl']. cbn [foldl bytes_parity foldr].
    rewrite IH by (done || by apply crc8_byte_u8).
    by rewrite byte_parity_crc8_byte, xorb_assoc by done.
Qed.

(** X6.  The checksum has the parity of the data: an odd number of one
    bits in the [n] bytes read gives a CRC with an odd number of one
    bits, an even number an even one. *)
Theorem crc8_maxim_parity (d : list Z) (n : nat) :
  (n <= length d)%nat -> Forall is_u8 d ->
  byte_parity (crc8_maxim d n) = bytes_parity (take n d).
Proof.
  intros Hn Hd. rewrite crc8_maxim_take by done.
  rewrite foldl_crc8_parity by (apply is_u8_0 || by apply Forall_take).
  done.
Qed.

Lemma crc8_maxim_parity_witness :
  byte_parity (crc8_maxim [0x31; 0x32; 0x33] 3)
  = bytes_parity [0x31; 0x32; 0x33].
Proof.
  apply (crc8_maxim_parity [0x31; 0x32; 0x33] 3); [simpl; lia | solve_u8].
Defined.

(** ** Which transmission errors the check catches *)

Lemma radarTask_frame_rejected s (frame : list Z) :
  wf s -> idx s = 0%nat ->
  length frame = PKT_LEN -> frame !! 0%nat = Some PKT_SYNC ->
  crc_ok frame = false ->
  radarTask s frame =
  Some (State frame 0 (lastX s) (lastY s) (lastZ s) (poseValid s), []).
Proof.
  intros Hwf Hidx Hlen Hsync Hcrc. rewrite radarTask_frame by done.
  unfold completed. rewrite frame_done_full by done. cbn [buf].
  by rewrite Hcrc.
Qed.

Lemma radarTask_frame_accepted s (frame : list Z) :
  wf s -> idx s = 0%nat ->
  length frame = PKT_LEN -> frame !! 0%nat = Some PKT_SYNC ->
  crc_ok frame = true ->
  radarTask s frame =
  Some (State frame 0 (pm_x (decode frame)) (pm_y (decode frame))
              (pm_z (decode frame)) 1, [decode frame]).
Proof.
  intros Hwf Hidx Hlen Hsync Hcrc. rewrite radarTask_frame by done.
  unfold completed. rewrite frame_done_full by done. cbn [buf].
  by rewrite Hcrc.
Qed.

Lemma xor_bytes_length (d e : list Z) :
  length d = length e -> length (xor_bytes d e) = length d.
Proof. intros H. unfold xor_bytes. rewrite length_zip_with. lia. Qed.

Lemma xor_bytes_u8 (d e : list Z) :
  Forall is_u8 d -> Forall is_u8 e -> Forall is_u8 (xor_bytes d e).
Proof.
  intros Hd He. unfold xor_bytes.
  apply (Forall_zip_with_fst _ is_u8); [done|].
  eapply Forall_impl; [|exact He]. intros y Hy x Hx. by apply lxor_u8.
Qed.

Lemma crc_ok_unfold (b : list Z) :
  crc_ok b = (crc8_maxim (drop 1 b) 16 =? b !!! 17%nat).
Proof. reflexivity. Qed.

(** The check on damaged data is the check on the damage. *)
Lemma crc_ok_xor_bytes (frame e : list Z) :
  length frame = PKT_LEN -> Forall is_u8 frame -> crc_ok frame = true ->
  length e = PKT_LEN -> Forall is_u8 e ->
  crc_ok (xor_bytes frame e) = crc_ok e.
Proof.
  intros Hlen Hu8 Hok Hlen' Hu8'.
  rewrite crc_ok_unfold in Hok. apply Z.eqb_eq in Hok.
  rewrite !crc_ok_unfold.
  assert (Hcrc : crc8_maxim (drop 1 (xor_bytes frame e)) 16
                 = Z.lxor (frame !!! 17%nat) (crc8_maxim (drop 1 e) 16)).
  { unfold xor_bytes. rewrite zip_with_drop.
    fold (xor_bytes (drop 1 frame) (drop 1 e)).
    rewrite crc8_maxim_xor_bytes, Hok; [done|..|by apply Forall_drop
                                        |by apply Forall_drop];
      rewrite length_drop, ?Hlen, ?Hlen'; unfold PKT_LEN; simpl; lia. }
  assert (Hlast : xor_bytes frame e !!! 17%nat
                  = Z.lxor (frame !!! 17%nat) (e !!! 17%nat)).
  { unfold xor_bytes. apply lookup_total_zip_with;
      rewrite ?Hlen, ?Hlen'; unfold PKT_LEN; simpl; lia. }
  rewrite Hcrc, Hlast.
  destruct (Z.eqb_spec (crc8_maxim (drop 1 e) 16) (e !!! 17%nat)) as [Heq|Hne].
  - rewrite Heq. apply Z.eqb_refl.
  - apply Z.eqb_neq. intros H. by apply lxor_cancel_l in H.
Qed.

Lemma valid_frame_crc_ok (frame : list Z) :
  valid_frame frame -> crc_ok frame = true.
Proof. intros (Hlen & Hu8 & _ & Hcrc). by apply crc_ok_spec. Qed.

(** X7.  An error pattern [e] (18 bytes, byte 0 left alone) laid over a
    valid frame passes the check exactly when the pattern itself would:
    whether a corruption is caught depends on the corruption only, not
    on the payload.  The damaged frame yields a measurement in the one
    case and none in the other. *)
Theorem error_pattern_decides s (frame e : list Z) :
  wf s -> idx s = 0%nat -> valid_frame frame ->
  length e = 18%nat -> Forall is_u8 e -> e !! 0%nat = Some 0 ->
  crc_ok (xor_bytes frame e) = crc_ok e /\
  exists s',
    radarTask s (xor_bytes frame e) =
    Some (s', if crc_ok e then [decode (xor_bytes frame e)] else []).
Proof.
  intros Hwf Hidx Hvalid Hlen' Hu8' He0.
  pose proof (valid_frame_crc_ok frame Hvalid) as Hok.
  destruct Hvalid as (Hlen & Hu8 & Hsync & _).
  assert (Hx : crc_ok (xor_bytes frame e) = crc_ok e)
    by (by apply crc_ok_xor_bytes).
  assert (Hxlen : length (xor_bytes frame e) = PKT_LEN)
    by (rewrite xor_bytes_length; [done|by rewrite Hlen']).
  assert (Hxsync : xor_bytes frame e !! 0%nat = Some PKT_SYNC).
  { unfold xor_bytes. rewrite lookup_zip_with, Hsync, He0. done. }
  split; [done|]. destruct (crc_ok e) eqn:He; eexists.
  - by apply radarTask_frame_accepted.
  - by apply radarTask_frame_rejected.
Qed.

Lemma error_pattern_decides_witness :
  crc_ok (xor_bytes
            [0xA5; 0; 0; 0x80; 0x3F; 0; 0; 0; 0x40; 0; 0; 0x40; 0x40;
             0; 0; 0x80; 0x3F; 0xD5]
            [0; 0; 0; 0; 0; 0; 0; 0; 0x18; 0; 0; 0; 0; 0; 0; 0; 0; 0])
  = false /\
  exists s',
    radarTask (init_state (replicate 18 0))
      (xor_bytes
         [0xA5; 0; 0; 0x80; 0x3F; 0; 0; 0; 0x40; 0; 0; 0x40; 0x40;
          0; 0; 0x80; 0x3F; 0xD5]
         [0; 0; 0; 0; 0; 0; 0; 0; 0x18; 0; 0; 0; 0; 0; 0; 0; 0; 0])
    = Some (s', []).
Proof.
  apply (error_pattern_decides (init_state (replicate 18 0))
           [0xA5; 0; 0; 0x80; 0x3F; 0; 0; 0; 0x40; 0; 0; 0x40; 0x40;
            0; 0; 0x80; 0x3F; 0xD5]
           [0; 0; 0; 0; 0; 0; 0; 0; 0x18; 0; 0; 0; 0; 0; 0; 0; 0; 0]);
    [reflexivity | reflexivity | | reflexivity | solve_u8 | reflexivity].
  split; [reflexivity|]. split; [solve_u8|]. split; [reflexivity|].
  vm_compute. reflexivity.
Defined.

Lemma bytes_parity_app (l1 l2 : list Z) :
  bytes_parity (l1 ++ l2) = xorb (bytes_parity l1) (bytes_parity l2).
Proof.
  induction l1 as [|b l1 IH]; simpl; [by destruct (bytes_parity l2)|].
  by rewrite IH, xorb_assoc.
Qed.

(** The bytes after the sync byte: payload, then trailing byte. *)
Lemma drop_1_frame (frame : list Z) :
  length frame = PKT_LEN ->
  drop 1 frame = take 16 (drop 1 frame) ++ [frame !!! 17%nat].
Proof.
  intros Hlen. rewrite <- (take_drop 16 (drop 1 frame)) at 1. f_equal.
  rewrite drop_drop. change (1 + 16)%nat with 17%nat.
  destruct (split_last frame 17 Hlen) as (l & a & -> & Hl).
  rewrite drop_app_length' by done.
  by rewrite lookup_total_app_r, Hl, Nat.sub_diag by lia.
Qed.

(** The check passes exactly when the CRC over bytes 1..17 is 0. *)
Lemma crc_ok_residue (frame : list Z) :
  length frame = PKT_LEN -> Forall is_u8 frame ->
  crc_ok frame = true <-> foldl crc8_byte 0 (drop 1 frame) = 0.
Proof.
  intros Hlen Hu8. rewrite crc_ok_unfold, Z.eqb_eq.
  rewrite (drop_1_frame frame Hlen) at 2. rewrite foldl_app. cbn [foldl].
  rewrite crc8_maxim_take
    by (rewrite length_drop, Hlen; unfold PKT_LEN; simpl; lia).
  assert (H17 : is_u8 (frame !!! 17%nat)).
  { eapply Forall_lookup_1; [exact Hu8|].
    apply list_lookup_lookup_total_lt. rewrite Hlen. unfold PKT_LEN. lia. }
  rewrite crc8_byte_zero_iff;
    [|apply foldl_crc8_u8; [apply is_u8_0|by apply Forall_take, Forall_drop]
     |done].
  split; congruence.
Qed.

Lemma crc_ok_even_parity (frame : list Z) :
  length frame = PKT_LEN -> Forall is_u8 frame -> crc_ok frame = true ->
  bytes_parity (drop 1 frame) = false.
Proof.
  intros Hlen Hu8 Hok. apply crc_ok_residue in Hok; [|done..].
  apply (f_equal byte_parity) in Hok.
  rewrite foldl_crc8_parity in Hok
    by (apply is_u8_0 || by apply Forall_drop).
  exact Hok.
Qed.

(** X8.  An error pattern with an odd number of one bits (an odd
    number of inverted bits in bytes 1..17) laid over a valid frame is
    always caught: the check fails and no measurement is handed out. *)
Theorem odd_bit_errors_rejected s (frame e : list Z) :
  wf s -> idx s = 0%nat -> valid_frame frame ->
  length e = 18%nat -> Forall is_u8 e -> e !! 0%nat = Some 0 ->
  bytes_parity e = true ->
  crc_ok (xor_bytes frame e) = false /\
  radarTask s (xor_bytes frame e) =
  Some (State (xor_bytes frame e) 0
              (lastX s) (lastY s) (lastZ s) (poseValid s), []).
Proof.
  intros Hwf Hidx Hvalid Hlen' Hu8' He0 Hodd.
  pose proof (valid_frame_crc_ok frame Hvalid) as Hok.
  destruct Hvalid as (Hlen & Hu8 & Hsync & _).
  assert (He : crc_ok e = false).
  { apply not_true_is_false. intros H.
    apply crc_ok_even_parity in H; [|done..].
    destruct e as [|e0 e']; [done|]. injection He0 as ->.
    change (bytes_parity (0 :: e')) with (bytes_parity e') in Hodd.
    change (drop 1 (0 :: e')) with e' in H. congruence. }
  assert (Hx : crc_ok (xor_bytes frame e) = false)
    by (by rewrite crc_ok_xor_bytes).
  split; [done|]. apply radarTask_frame_rejected; try done.
  - rewrite xor_bytes_length; [done|by rewrite Hlen'].
  - unfold xor_bytes. by rewrite lookup_zip_with, Hsync, He0.
Qed.

Lemma odd_bit_errors_rejected_witness :
  crc_ok (xor_bytes
            [0xA5; 0; 0; 0x80; 0x3F; 0; 0; 0; 0x40; 0; 0; 0x40; 0x40;
             0; 0; 0x80; 0x3F; 0xD5]
            [0; 0x01; 0; 0; 0x10; 0; 0; 0; 0; 0; 0; 0; 0; 0; 0; 0; 0; 0x80])
  = false /\
  radarTask (init_state (replicate 18 0))
    (xor_bytes
       [0xA5; 0; 0; 0x80; 0x3F; 0; 0; 0; 0x40; 0; 0; 0x40; 0x40;
        0; 0; 0x80; 0x3F; 0xD5]
       [0; 0x01; 0; 0; 0x10; 0; 0; 0; 0; 0; 0; 0; 0; 0; 0; 0; 0; 0x80])
  = Some (State [0xA5; 0x01; 0; 0x80; 0x2F; 0; 0; 0; 0x40; 0; 0; 0x40; 0x40;
                 0; 0; 0x80; 0x3F; 0x55] 0 0 0 0 0, []).
Proof.
  apply (odd_bit_errors_rejected (init_state (replicate 18 0))
           [0xA5; 0; 0; 0x80; 0x3F; 0; 0; 0; 0x40; 0; 0; 0x40; 0x40;
            0; 0; 0x80; 0x3F; 0xD5]
           [0; 0x01; 0; 0; 0x10; 0; 0; 0; 0; 0; 0; 0; 0; 0; 0; 0; 0; 0x80]);
    [reflexivity | reflexivity | | reflexivity | solve_u8 | reflexivity
    | reflexivity].
  split; [reflexivity|]. split; [solve_u8|]. split; [reflexivity|].
  vm_compute. reflexivity.
Defined.

Lemma foldl_crc8_zeros_iff (k : nat) c :
  is_u8 c -> foldl crc8_byte c (replicate k 0) = 0 <-> c = 0.
Proof.
  intros Hc. split.
  - intros H. apply (foldl_crc8_inj_c (replicate k 0));
      [done|apply is_u8_0|apply Forall_replicate, is_u8_0|].
    by rewrite H, foldl_crc8_zeros.
  - intros ->. apply foldl_crc8_zeros.
Qed.

(** No burst of at most eight bits is its own checksum: byte [ea] with
    its [k] low bits clear followed by byte [eb] below [2^k]. *)
Lemma burst_not_codeword (k : nat) ea eb :
  (k <= 8)%nat -> is_u8 ea -> is_u8 eb ->
  ea mod 2 ^ Z.of_nat k = 0 -> eb < 2 ^ Z.of_nat k ->
  ea <> 0 \/ eb <> 0 ->
  eb <> crc8_byte 0 ea.
Proof.
  intros Hk Ha Hb Hlow Hhigh Hnz.
  assert (H : all_u8 (fun ea =>
                let t := crc8_byte 0 ea in
                all_u8 (fun eb =>
                  forallb (fun k =>
                    implb ((ea mod 2 ^ k =? 0) && (eb <? 2 ^ k)
                           && negb ((ea =? 0) && (eb =? 0)))
                          (negb (eb =? t)))
                    (seqZ 0 9))) = true)
    by (vm_compute; reflexivity).
  pose proof (all_u8_spec _ H ea Ha) as H1. cbv beta zeta in H1.
  pose proof (all_u8_spec _ H1 eb Hb) as H2. cbv beta in H2.
  rewrite forallb_forall in H2.
  specialize (H2 (Z.of_nat k)).
  rewrite <- list_elem_of_In, elem_of_seqZ in H2.
  specialize (H2 ltac:(lia)).
  rewrite (proj2 (Z.eqb_eq _ _) Hlow), (proj2 (Z.ltb_lt _ _) Hhigh) in H2.
  intros Heq. rewrite (proj2 (Z.eqb_eq _ _) Heq) in H2.
  destruct Hnz as [Hnz|Hnz]; apply Z.eqb_neq in Hnz; rewrite Hnz in H2;
    [|rewrite andb_false_r in H2]; discriminate.
Qed.

Lemma burst_pattern_wf (j : nat) ea eb :
  (j <= 16)%nat -> is_u8 ea -> is_u8 eb ->
  length (burst_pattern j ea eb) = PKT_LEN /\
  Forall is_u8 (burst_pattern j ea eb).
Proof.
  intros Hj Ha Hb. unfold burst_pattern. split.
  - rewrite !length_app, !length_replicate. unfold PKT_LEN. simpl. lia.
  - apply Forall_app_2; [apply Forall_replicate, is_u8_0|].
    apply Forall_app_2; [by do 2 (constructor; [done|])|].
    apply Forall_replicate, is_u8_0.
Qed.

Lemma burst_pattern_crc_ok (j k : nat) ea eb :
  (1 <= j <= 16)%nat -> (k <= 8)%nat -> is_u8 ea -> is_u8 eb ->
  ea mod 2 ^ Z.of_nat k = 0 -> eb < 2 ^ Z.of_nat k ->
  ea <> 0 \/ eb <> 0 ->
  crc_ok (burst_pattern j ea eb) = false.
Proof.
  intros Hj Hk Ha Hb Hlow Hhigh Hnz.
  destruct (burst_pattern_wf j ea eb) as [Hlen Hu8]; [lia|done..|].
  apply not_true_is_false. rewrite crc_ok_residue by done.
  unfold burst_pattern. destruct j as [|j]; [lia|].
  cbn [replicate app drop]. rewrite drop_0, !foldl_app, foldl_crc8_zeros.
  cbn [foldl app]. rewrite foldl_crc8_zeros_iff by apply crc8_byte_is_byte.
  rewrite crc8_byte_zero_iff by (done || apply crc8_byte_is_byte).
  by apply (burst_not_codeword k).
Qed.

(** X9.  Error bursts of at most eight consecutive bits are always
    caught.  The bits are counted in the order the CRC takes them, least
    significant first: the burst touches bits [k..7] of byte [j]
    (pattern [ea], low [k] bits clear) and bits [0..k-1] of byte [j+1]
    (pattern [eb] below [2^k]), for any [1 <= j <= 16]; with [k = 0]
    this is any change of one payload byte, with [k = 8] and [j = 16]
    any change of the trailing byte.  The damaged frame fails the check
    and no measurement is handed out. *)
Theorem burst_error_rejected s (frame : list Z) (j k : nat) ea eb :
  wf s -> idx s = 0%nat -> valid_frame frame ->
  (1 <= j <= 16)%nat -> (k <= 8)%nat -> is_u8 ea -> is_u8 eb ->
  ea mod 2 ^ Z.of_nat k = 0 -> eb < 2 ^ Z.of_nat k ->
  ea <> 0 \/ eb <> 0 ->
  crc_ok (xor_bytes frame (burst_pattern j ea eb)) = false /\
  radarTask s (xor_bytes frame (burst_pattern j ea eb)) =
  Some (State (xor_bytes frame (burst_pattern j ea eb)) 0
              (lastX s) (lastY s) (lastZ s) (poseValid s), []).
Proof.
  intros Hwf Hidx Hvalid Hj Hk Ha Hb Hlow Hhigh Hnz.
  pose proof (valid_frame_crc_ok frame Hvalid) as Hok.
  destruct Hvalid as (Hlen & Hu8 & Hsync & _).
  destruct (burst_pattern_wf j ea eb) as [Hlen' Hu8']; [lia|done..|].
  assert (Hx : crc_ok (xor_bytes frame (burst_pattern j ea eb)) = false).
  { rewrite crc_ok_xor_bytes by done. by apply (burst_pattern_crc_ok j k). }
  split; [done|]. apply radarTask_frame_rejected; try done.
  - rewrite xor_bytes_length; [done|by rewrite Hlen'].
  - unfold xor_bytes, burst_pattern. rewrite lookup_zip_with, Hsync.
    destruct j as [|j]; [lia|]. done.
Qed.

(** Bits 5..7 of byte 3 and bits 0..4 of byte 4 all inverted. *)
Lemma burst_error_rejected_witness :
  crc_ok (xor_bytes
            [0xA5; 0; 0; 0x80; 0x3F; 0; 0; 0; 0x40; 0; 0; 0x40; 0x40;
             0; 0; 0x80; 0x3F; 0xD5]
            (burst_pattern 3 0xE0 0x1F)) = false /\
  radarTask (init_state (replicate 18 0))
    (xor_bytes
       [0xA5; 0; 0; 0x80; 0x3F; 0; 0; 0; 0x40; 0; 0; 0x40; 0x40;
        0; 0; 0x80; 0x3F; 0xD5]
       (burst_pattern 3 0xE0 0x1F))
  = Some (State [0xA5; 0; 0; 0x60; 0x20; 0; 0; 0; 0x40; 0; 0; 0x40; 0x40;
                 0; 0; 0x80; 0x3F; 0xD5] 0 0 0 0 0, []).
Proof.
  apply (burst_error_rejected (init_state (replicate 18 0))
           [0xA5; 0; 0; 0x80; 0x3F; 0; 0; 0; 0x40; 0; 0; 0x40; 0x40;
            0; 0; 0x80; 0x3F; 0xD5] 3 5 0xE0 0x1F);
    [reflexivity | reflexivity | | lia | lia | solve_u8 | solve_u8
    | reflexivity | reflexivity | left; discriminate].
  split; [reflexivity|]. split; [solve_u8|]. split; [reflexivity|].
  vm_compute. reflexivity.
Defined.

Lemma decode_fields (frame : list Z) :
  decode frame =
  PositionMeasurement
    (f32_of_bytes (frame !!! 1%nat) (frame !!! 2%nat)
                  (frame !!! 3%nat) (frame !!! 4%nat))
    (f32_of_bytes (frame !!! 5%nat) (frame !!! 6%nat)
                  (frame !!! 7%nat) (frame !!! 8%nat))
    (f32_of_bytes (frame !!! 9%nat) (frame !!! 10%nat)
                  (frame !!! 11%nat) (frame !!! 12%nat))
    (f32_of_bytes (frame !!! 13%nat) (frame !!! 14%nat)
                  (frame !!! 15%nat) (frame !!! 16%nat))
    MeasurementSourceLocationService.
Proof. unfold decode, load_f32. by rewrite !lookup_total_drop. Qed.

Lemma flip_two_xor_bytes (frame : list Z) :
  length frame = PKT_LEN ->
  flip_bit (flip_bit frame 1 0) 16 7 = xor_bytes frame double_bit_pattern.
Proof.
  intros Hlen.
  do 19 (destruct frame as [|? frame]; try discriminate Hlen).
  unfold xor_bytes, double_bit_pattern. cbn [zip_with].
  rewrite !Z.lxor_0_r. reflexivity.
Qed.

(** X10.  Not every two-bit error is caught: bytes 1..17 hold 136 bits,
    more than the 127 over which this polynomial separates two errors.
    In any valid frame, inverting bit 0 of byte 1 (lowest bit of [x])
    together with bit 7 of byte 16 (sign bit of [stdDev]) gives a frame
    that passes the check; it is handed out as a measurement whose [x]
    and [stdDev] differ from the ones sent. *)
Theorem double_bit_error_accepted s (frame : list Z) :
  wf s -> idx s = 0%nat -> valid_frame frame ->
  crc_ok (flip_bit (flip_bit frame 1 0) 16 7) = true /\
  radarTask s (flip_bit (flip_bit frame 1 0) 16 7) =
  Some (State (flip_bit (flip_bit frame 1 0) 16 7) 0
              (pm_x (decode (flip_bit (flip_bit frame 1 0) 16 7)))
              (pm_y (decode (flip_bit (flip_bit frame 1 0) 16 7)))
              (pm_z (decode (flip_bit (flip_bit frame 1 0) 16 7))) 1,
        [decode (flip_bit (flip_bit frame 1 0) 16 7)]) /\
  pm_x (decode (flip_bit (flip_bit frame 1 0) 16 7)) <> pm_x (decode frame) /\
  pm_stdDev (decode (flip_bit (flip_bit frame 1 0) 16 7))
  <> pm_stdDev (decode frame).
Proof.
  intros Hwf Hidx Hvalid.
  pose proof (valid_frame_crc_ok frame Hvalid) as Hok.
  destruct Hvalid as (Hlen & Hu8 & Hsync & _).
  set (frame' := flip_bit (flip_bit frame 1 0) 16 7).
  assert (Hlen' : length frame' = PKT_LEN)
    by (unfold frame', flip_bit; by rewrite !length_insert).
  assert (Hx : crc_ok frame' = true).
  { unfold frame'. rewrite flip_two_xor_bytes by done.
    rewrite crc_ok_xor_bytes; [by vm_compute|done..|solve_u8]. }
  assert (Hsync' : frame' !! 0%nat = Some PKT_SYNC)
    by (unfold frame', flip_bit; by rewrite !list_lookup_insert_ne by lia).
  assert (H1 : frame' !!! 1%nat
               = Z.lxor (frame !!! 1%nat) (Z.shiftl 1 (Z.of_nat 0))).
  { unfold frame', flip_bit.
    rewrite list_lookup_total_insert_ne by lia.
    apply list_lookup_total_insert_eq. rewrite Hlen. unfold PKT_LEN. lia. }
  assert (H16 : frame' !!! 16%nat
                = Z.lxor (frame !!! 16%nat) (Z.shiftl 1 (Z.of_nat 7))).
  { unfold frame', flip_bit.
    rewrite list_lookup_total_insert_eq
      by (rewrite length_insert, Hlen; unfold PKT_LEN; lia).
    by rewrite list_lookup_total_insert_ne by lia. }
  assert (Hrest : forall i, i <> 1%nat -> i <> 16%nat ->
                            frame' !!! i = frame !!! i).
  { intros i Hi1 Hi16. unfold frame', flip_bit.
    by rewrite !list_lookup_total_insert_ne by lia. }
  split; [done|]. split; [by apply radarTask_frame_accepted|].
  rewrite !decode_fields. cbn [pm_x pm_stdDev].
  rewrite H1, H16, !Hrest by lia.
  pose proof (flip_ne (frame !!! 1%nat) 0) as Hne1.
  pose proof (flip_ne (frame !!! 16%nat) 7) as Hne16.
  unfold f32_of_bytes.
  change (2 ^ 8) with 256. change (2 ^ 16) with 65536.
  change (2 ^ 24) with 16777216.
  split; lia.
Qed.

Lemma double_bit_error_accepted_witness :
  crc_ok [0xA5; 0x01; 0; 0x80; 0x3F; 0; 0; 0; 0x40; 0; 0; 0x40; 0x40;
          0; 0; 0x80; 0xBF; 0xD5] = true /\
  radarTask (init_state (replicate 18 0))
    [0xA5; 0x01; 0; 0x80; 0x3F; 0; 0; 0; 0x40; 0; 0; 0x40; 0x40;
     0; 0; 0x80; 0xBF; 0xD5] =
  Some (State [0xA5; 0x01; 0; 0x80; 0x3F; 0; 0; 0; 0x40; 0; 0; 0x40; 0x40;
               0; 0; 0x80; 0xBF; 0xD5] 0 0x3F800001 0x40000000 0x40400000 1,
        [PositionMeasurement 0x3F800001 0x40000000 0x40400000 0xBF800000
                             MeasurementSourceLocationService]).
Proof.
  destruct (double_bit_error_accepted (init_state (replicate 18 0))
              [0xA5; 0; 0; 0x80; 0x3F; 0; 0; 0; 0x40; 0; 0; 0x40; 0x40;
               0; 0; 0x80; 0x3F; 0xD5] eq_refl eq_refl)
    as (Hok & Hrun & _).
  - split; [reflexivity|]. split; [solve_u8|]. split; [reflexivity|].
    vm_compute. reflexivity.
  - split; [exact Hok | exact Hrun].
Defined.

(** ** Streams of frames and noise *)

Lemma completed_idle s (frame : list Z) :
  length frame = PKT_LEN ->
  idx (fst (completed s frame)) = 0%nat /\ wf (fst (completed s frame)) /\
  emitted (snd (completed s frame)) = chunk_out (Frame frame).
Proof.
  intros Hlen. unfold completed. rewrite frame_done_full by done.
  cbn [buf chunk_out]. by destruct (crc_ok frame).
Qed.

Lemma radarTask_chunks (cs : list chunk) : forall s,
  wf s -> idx s = 0%nat -> Forall chunk_ok cs ->
  exists s',
    radarTask s (concat (map chunk_bytes cs))
    = Some (s', concat (map chunk_out cs)) /\
    wf s' /\ idx s' = 0%nat.
Proof.
  induction cs as [|c cs IH]; intros s Hwf Hidx Hcs.
  - by exists s.
  - inversion_clear Hcs as [|? ? Hc Hcs']. cbn [map concat].
    rewrite radarTask_app. destruct c as [l|f]; cbn [chunk_ok] in Hc.
    + rewrite radarTask_noise by done. cbn [mbind option_bind chunk_bytes].
      destruct (IH s Hwf Hidx Hcs') as (s' & -> & Hwf' & Hidx').
      by exists s'.
    + destruct Hc as [Hlen Hsync]. cbn [chunk_bytes].
      rewrite radarTask_frame by done. cbn [mbind option_bind].
      destruct (completed_idle s f Hlen) as (Hi & Hw & ->).
      destruct (IH _ Hw Hi Hcs') as (s' & -> & Hwf' & Hidx').
      exists s'. split; [reflexivity|by split].
Qed.

(** X11.  A stream made of runs of non-sync bytes and of 18-byte
    windows that begin with the sync byte, in any order and number, is
    decoded window by window: the measurements handed out are, in
    order, the decodings of the windows that pass the check, and the
    task ends idle.  Sync bytes inside a window do not restart the
    framing. *)
Theorem stream_decode s (cs : list chunk) :
  wf s -> idx s = 0%nat -> Forall chunk_ok cs ->
  exists s',
    radarTask s (concat (map chunk_bytes cs))
    = Some (s', concat (map chunk_out cs)) /\
    idx s' = 0%nat.
Proof.
  intros Hwf Hidx Hcs.
  destruct (radarTask_chunks cs s Hwf Hidx Hcs) as (s' & Hrun & _ & Hidx').
  by exists s'.
Qed.

(** Noise, a valid frame holding sync bytes in its payload, a damaged
    frame, the valid frame again. *)
Lemma stream_decode_witness :
  exists s',
    radarTask (init_state (replicate 18 0))
      ([0x00; 0x17] ++
       [0xA5; 0xA5; 0xA5; 0x80; 0x3F; 0; 0; 0; 0x40; 0; 0; 0x40; 0x40;
        0; 0; 0x80; 0x3F; 0x26] ++
       [0xA5; 0xA5; 0xA5; 0x80; 0x3F; 0; 0; 0; 0x40; 0; 0; 0x40; 0x40;
        0; 0; 0x80; 0x3F; 0x27] ++
       [0xA5; 0xA5; 0xA5; 0x80; 0x3F; 0; 0; 0; 0x40; 0; 0; 0x40; 0x40;
        0; 0; 0x80; 0x3F; 0x26])
    = Some (s', [PositionMeasurement 0x3F80A5A5 0x40000000 0x40400000
                   0x3F800000 MeasurementSourceLocationService;
                 PositionMeasurement 0x3F80A5A5 0x40000000 0x40400000
                   0x3F800000 MeasurementSourceLocationService]) /\
    idx s' = 0%nat.
Proof.
  apply (stream_decode (init_state (replicate 18 0))
           [Noise [0x00; 0x17];
            Frame [0xA5; 0xA5; 0xA5; 0x80; 0x3F; 0; 0; 0; 0x40; 0; 0; 0x40;
                   0x40; 0; 0; 0x80; 0x3F; 0x26];
            Frame [0xA5; 0xA5; 0xA5; 0x80; 0x3F; 0; 0; 0; 0x40; 0; 0; 0x40;
                   0x40; 0; 0; 0x80; 0x3F; 0x27];
            Frame [0xA5; 0xA5; 0xA5; 0x80; 0x3F; 0; 0; 0; 0x40; 0; 0; 0x40;
                   0x40; 0; 0; 0x80; 0x3F; 0x26]]);
    [reflexivity | reflexivity |].
  repeat constructor; discriminate.
Defined.

(** ** Where measurements come from *)

Lemma decoded_from_app (h rest : list Z) m :
  decoded_from h m -> decoded_from (h ++ rest) m.
Proof.
  intros (pre & frame & post & -> & H). exists pre, frame, (post ++ rest).
  split; [by rewrite <- !app_assoc|done].
Qed.

Lemma assembling_step (h : list Z) s byte :
  assembling h s ->
  exists s' out,
    radar_step s byte = Some (s', out) /\
    assembling (h ++ [byte]) s' /\
    (18 * length (emitted out) + idx s' <= idx s + 1)%nat /\
    forall m, out = Some m -> decoded_from (h ++ [byte]) m.
Proof.
  unfold assembling, wf. intros (Hwf & Hidx & (pre & Hpre) & Hsync).
  destruct (decide (idx s = 0%nat)) as [H0|H0].
  - destruct (decide (byte = PKT_SYNC)) as [->|Hb].
    + rewrite radar_step_sync by done. eexists _, _. split; [done|].
      cbn [buf idx emitted from_option length].
      rewrite length_insert.
      destruct (buf s) as [|y t] eqn:Hbuf; [done|].
      split; [split; [|split; [|split]]|split].
      * done.
      * unfold PKT_LEN. lia.
      * by exists h.
      * done.
      * lia.
      * done.
    + rewrite radar_step_idle by done. exists s, None.
      split; [done|]. split; [split; [|split; [|split]]|split].
      * done.
      * done.
      * exists (h ++ [byte]). by rewrite H0, take_0, app_nil_r.
      * done.
      * simpl. lia.
      * done.
  - assert (Hs : buf s !! 0%nat = Some PKT_SYNC) by (apply Hsync; lia).
    rewrite radar_step_store by lia.
    assert (Htake : take (S (idx s)) (<[idx s := byte]> (buf s))
                    = take (idx s) (buf s) ++ [byte]).
    { rewrite (take_S_r _ _ byte)
        by (apply list_lookup_insert_eq; rewrite Hwf; lia).
      by rewrite take_insert_ge by lia. }
    assert (Hs' : <[idx s := byte]> (buf s) !! 0%nat = Some PKT_SYNC)
      by (by rewrite list_lookup_insert_ne by lia).
    destruct (decide (S (idx s) = PKT_LEN)) as [Hfull|Hpart].
    + rewrite frame_done_full by done. cbn [buf].
      assert (Hframe : h ++ [byte]
                       = pre ++ <[idx s := byte]> (buf s) ++ []).
      { rewrite app_nil_r, Hpre, <- app_assoc. f_equal. rewrite <- Htake.
        apply take_ge. rewrite length_insert. lia. }
      assert (Hidle : exists pre0,
                h ++ [byte] = pre0 ++ take 0 (<[idx s := byte]> (buf s))).
      { exists (h ++ [byte]). by rewrite take_0, app_nil_r. }
      destruct (crc_ok _) eqn:Hcrc; eexists _, _; (split; [done|]);
        cbn [buf idx emitted from_option length]; rewrite length_insert;
        (split; [split; [|split; [|split]]|split]);
        try assumption; try (unfold PKT_LEN in *; lia);
        try (intros; lia); try (by intros ? [=]).
      intros m [= <-]. exists pre, (<[idx s := byte]> (buf s)), [].
      split; [exact Hframe|]. rewrite length_insert.
      split; [exact Hwf|]. split; [exact Hs'|]. split; [exact Hcrc|reflexivity].
    + rewrite frame_done_partial by done. eexists _, _. split; [done|].
      cbn [buf idx emitted from_option length]. rewrite length_insert.
      split; [split; [|split; [|split]]|split].
      * done.
      * lia.
      * exists pre. by rewrite Htake, Hpre, app_assoc.
      * done.
      * lia.
      * done.
Qed.

Lemma assembling_run (bytes : list Z) : forall (h : list Z) s,
  assembling h s ->
  exists s' outs,
    radarTask s bytes = Some (s', outs) /\
    assembling (h ++ bytes) s' /\
    (18 * length outs + idx s' <= idx s + length bytes)%nat /\
    Forall (decoded_from (h ++ bytes)) outs.
Proof.
  induction bytes as [|b bytes IH]; intros h s Hinv.
  - exists s, []. rewrite app_nil_r.
    split; [done|]. split; [done|]. split; [simpl; lia|constructor].
  - destruct (assembling_step h s b Hinv)
      as (s1 & out & Hstep & Hinv1 & Hcount & Hout).
    destruct (IH (h ++ [b]) s1 Hinv1)
      as (s2 & outs & Hrun & Hinv2 & Hcount2 & Houts).
    rewrite <- app_assoc in Hinv2, Houts. simpl in Hinv2, Houts.
    exists s2, (emitted out ++ outs).
    rewrite radarTask_cons, Hstep. cbn [mbind option_bind]. rewrite Hrun.
    split; [done|]. split; [done|]. split.
    + rewrite length_app. simpl length. lia.
    + apply Forall_app_2; [|done]. destruct out as [m|]; [|done].
      constructor; [|done].
      replace (h ++ b :: bytes) with ((h ++ [b]) ++ bytes)
        by (by rewrite <- app_assoc).
      by apply decoded_from_app, Hout.
Qed.

Lemma assembling_init (junk : list Z) :
  length junk = PKT_LEN -> assembling [] (init_state junk).
Proof.
  intros Hjunk. unfold assembling, wf. cbn [buf idx init_state].
  split; [done|]. split; [unfold PKT_LEN; lia|].
  split; [by exists []|lia].
Qed.

(** X12.  The task never invents a measurement: after any bytes read
    from its start, each measurement handed out is the decoding of 18
    consecutive bytes of the input that begin with the sync byte and
    pass the check.  In particular nothing is ever decoded from what the
    buffer held before the task started. *)
Theorem measurements_come_from_input (junk bytes : list Z) :
  length junk = PKT_LEN ->
  exists s outs,
    radarTask (init_state junk) bytes = Some (s, outs) /\
    Forall (decoded_from bytes) outs.
Proof.
  intros Hjunk.
  destruct (assembling_run bytes [] (init_state junk)
              (assembling_init junk Hjunk))
    as (s & outs & Hrun & _ & _ & Houts).
  by exists s, outs.
Qed.

Lemma measurements_come_from_input_witness :
  exists s outs,
    radarTask (init_state [0xA5; 0; 0; 0x80; 0x3F; 0; 0; 0; 0x40; 0; 0;
                           0x40; 0x40; 0; 0; 0x80; 0x3F; 0xD5])
              [0; 0; 0x80; 0x3F; 0; 0; 0; 0x40; 0; 0; 0x40; 0x40;
               0; 0; 0x80; 0x3F; 0xD5] = Some (s, outs) /\
    Forall (decoded_from [0; 0; 0x80; 0x3F; 0; 0; 0; 0x40; 0; 0; 0x40; 0x40;
                          0; 0; 0x80; 0x3F; 0xD5]) outs.
Proof.
  apply (measurements_come_from_input
           [0xA5; 0; 0; 0x80; 0x3F; 0; 0; 0; 0x40; 0; 0;
            0x40; 0x40; 0; 0; 0x80; 0x3F; 0xD5]
           [0; 0; 0x80; 0x3F; 0; 0; 0; 0x40; 0; 0; 0x40; 0x40;
            0; 0; 0x80; 0x3F; 0xD5]).
  reflexivity.
Defined.

(** X13.  At most one measurement per 18 bytes read: after any bytes
    from the start of the task, 18 times the number of measurements
    handed out, plus the bytes held of the frame in progress, is at most
    the number of bytes read. *)
Theorem emission_rate_bound (junk bytes : list Z) :
  length junk = PKT_LEN ->
  exists s outs,
    radarTask (init_state junk) bytes = Some (s, outs) /\
    (18 * length outs + idx s <= length bytes)%nat.
Proof.
  intros Hjunk.
  destruct (assembling_run bytes [] (init_state junk)
              (assembling_init junk Hjunk))
    as (s & outs & Hrun & _ & Hcount & _).
  exists s, outs. split; [done|]. cbn [idx init_state] in Hcount. lia.
Qed.

Lemma emission_rate_bound_witness :
  exists s outs,
    radarTask (init_state (replicate 18 0))
      ([0x11] ++
       [0xA5; 0; 0; 0x80; 0x3F; 0; 0; 0; 0x40; 0; 0; 0x40; 0x40;
        0; 0; 0x80; 0x3F; 0xD5] ++ [0xA5; 0x01]) = Some (s, outs) /\
    (18 * length outs + idx s <= 21)%nat.
Proof.
  apply (emission_rate_bound (replicate 18 0)
           ([0x11] ++
            [0xA5; 0; 0; 0x80; 0x3F; 0; 0; 0; 0x40; 0; 0; 0x40; 0x40;
             0; 0; 0x80; 0x3F; 0xD5] ++ [0xA5; 0x01])).
  reflexivity.
Defined.

(** ** The cached pose *)

Lemma radarTask_cache (bytes : list Z) : forall s,
  wf s -> (idx s < PKT_LEN)%nat ->
  exists s' outs,
    radarTask s bytes = Some (s', outs) /\
    cache s' = match list.last outs with
               | Some m => (pm_x m, pm_y m, pm_z m, 1)
               | None => cache s
               end.
Proof.
  induction bytes as [|b bytes IH]; intros s Hwf Hidx.
  - by exists s, [].
  - destruct (radar_step_inv s b Hwf Hidx)
      as (s1 & out & Hstep & Hwf1 & Hidx1 & _ & Hcache).
    destruct (IH s1 Hwf1 Hidx1) as (s2 & outs & Hrun & Hc).
    exists s2, (emitted out ++ outs).
    rewrite radarTask_cons, Hstep. cbn [mbind option_bind].
    rewrite Hrun. split; [reflexivity|].
    rewrite Hc, last_app. destruct (list.last outs) as [m|]; [done|].
    by destruct out as [m|].
Qed.

(** X14.  The logged pose is the last measurement: after any bytes
    read from the start of the task, [lastX], [lastY], [lastZ] are the
    [x], [y], [z] of the most recent measurement handed out, and are
    still 0 if there has been none. *)
Theorem cache_tracks_last_measurement (junk bytes : list Z) :
  length junk = PKT_LEN ->
  exists s outs,
    radarTask (init_state junk) bytes = Some (s, outs) /\
    (lastX s, lastY s, lastZ s)
    = match list.last outs with
      | Some m => (pm_x m, pm_y m, pm_z m)
      | None => (0, 0, 0)
      end.
Proof.
  intros Hjunk.
  destruct (radarTask_cache bytes (init_state junk))
    as (s & outs & Hrun & Hc); [done|cbn; unfold PKT_LEN; lia|].
  exists s, outs. split; [done|]. unfold cache in Hc.
  destruct (list.last outs) as [m|]; by injection Hc as -> -> -> _.
Qed.

(** Two valid frames with different poses, then a damaged one. *)
Lemma cache_tracks_last_measurement_witness :
  exists s outs,
    radarTask (init_state (replicate 18 0))
      ([0xA5; 0; 0; 0x80; 0x3F; 0; 0; 0; 0x40; 0; 0; 0x40; 0x40;
        0; 0; 0x80; 0x3F; 0xD5] ++
       [0xA5; 0xA5; 0xA5; 0x80; 0x3F; 0; 0; 0; 0x40; 0; 0; 0x40; 0x40;
        0; 0; 0x80; 0x3F; 0x26] ++
       [0xA5; 0; 0; 0; 0; 0; 0; 0; 0; 0; 0; 0; 0; 0; 0; 0; 0; 0x01])
    = Some (s, outs) /\
    (lastX s, lastY s, lastZ s)
    = match list.last outs with
      | Some m => (pm_x m, pm_y m, pm_z m)
      | None => (0, 0, 0)
      end.
Proof.
  apply (cache_tracks_last_measurement (replicate 18 0)
      ([0xA5; 0; 0; 0x80; 0x3F; 0; 0; 0; 0x40; 0; 0; 0x40; 0x40;
        0; 0; 0x80; 0x3F; 0xD5] ++
       [0xA5; 0xA5; 0xA5; 0x80; 0x3F; 0; 0; 0; 0x40; 0; 0; 0x40; 0x40;
        0; 0; 0x80; 0x3F; 0x26] ++
       [0xA5; 0; 0; 0; 0; 0; 0; 0; 0; 0; 0; 0; 0; 0; 0; 0; 0; 0x01])).
  reflexivity.
Defined.

(** ** A sync byte too many *)

(** X15.  A stray sync byte right before a valid frame [f] makes the
    task lose [f]: it checks the window made of the stray byte and the
    first 17 bytes of [f]; when this window fails the check and the last
    byte of [f] is not the sync byte, nothing is handed out for [f], the
    task is idle again, and a valid frame [g] that follows is decoded. *)
Theorem stray_sync_loses_frame s (f g : list Z) :
  wf s -> idx s = 0%nat -> valid_frame f -> valid_frame g ->
  f !! 17%nat <> Some 0xA5 -> crc_ok (0xA5 :: take 17 f) = false ->
  exists s',
    radarTask s (0xA5 :: f ++ g) = Some (s', [decode g]) /\ idx s' = 0%nat.
Proof.
  intros Hwf Hidx (Hlenf & _) Hg Hlast Hwin.
  pose proof (valid_frame_crc_ok g Hg) as Hokg.
  destruct Hg as (Hleng & _ & Hsyncg & _).
  destruct (split_last f 17 Hlenf) as (f' & a & -> & Hf').
  rewrite take_app_length' in Hwin by done.
  rewrite lookup_app_r, Hf', Nat.sub_diag in Hlast by lia.
  destruct (radarTask_chunks [Frame (0xA5 :: f'); Noise [a]; Frame g] s)
    as (s' & Hrun & _ & Hidx'); [done..| |].
  - constructor; [split; [cbn [length]; by rewrite Hf'|done]|].
    constructor; [constructor; [|constructor]; intros ->; by apply Hlast|].
    constructor; [by split|constructor].
  - exists s'. split; [|exact Hidx'].
    assert (Hbytes : concat (map chunk_bytes
                       [Frame (0xA5 :: f'); Noise [a]; Frame g])
                     = 0xA5 :: (f' ++ [a]) ++ g).
    { cbn [map concat chunk_bytes]. rewrite app_nil_r, <- !app_assoc.
      reflexivity. }
    assert (Houts : concat (map chunk_out
                      [Frame (0xA5 :: f'); Noise [a]; Frame g])
                    = [decode g]).
    { cbn [map concat]. unfold chunk_out. rewrite Hwin, Hokg. reflexivity. }
    rewrite Hbytes, Houts in Hrun. exact Hrun.
Qed.

Lemma stray_sync_loses_frame_witness :
  exists s',
    radarTask (init_state (replicate 18 0))
      (0xA5 ::
       [0xA5; 0; 0; 0x80; 0x3F; 0; 0; 0; 0x40; 0; 0; 0x40; 0x40;
        0; 0; 0x80; 0x3F; 0xD5] ++
       [0xA5; 0xA5; 0xA5; 0x80; 0x3F; 0; 0; 0; 0x40; 0; 0; 0x40; 0x40;
        0; 0; 0x80; 0x3F; 0x26])
    = Some (s', [PositionMeasurement 0x3F80A5A5 0x40000000 0x40400000
                   0x3F800000 MeasurementSourceLocationService]) /\
    idx s' = 0%nat.
Proof.
  apply (stray_sync_loses_frame (init_state (replicate 18 0))
           [0xA5; 0; 0; 0x80; 0x3F; 0; 0; 0; 0x40; 0; 0; 0x40; 0x40;
            0; 0; 0x80; 0x3F; 0xD5]
           [0xA5; 0xA5; 0xA5; 0x80; 0x3F; 0; 0; 0; 0x40; 0; 0; 0x40; 0x40;
            0; 0; 0x80; 0x3F; 0x26]);
    [reflexivity | reflexivity | | | discriminate | vm_compute; reflexivity].
  - split; [reflexivity|]. split; [solve_u8|]. split; [reflexivity|].
    vm_compute. reflexivity.
  - split; [reflexivity|]. split; [solve_u8|]. split; [reflexivity|].
    vm_compute. reflexivity.
Defined.

(** ** From the measurement back to the frame *)

Lemma f32_bytes_of_bytes b0 b1 b2 b3 :
  is_u8 b0 -> is_u8 b1 -> is_u8 b2 -> is_u8 b3 ->
  f32_bytes (f32_of_bytes b0 b1 b2 b3) = [b0; b1; b2; b3].
Proof.
  unfold is_u8, f32_bytes, f32_of_bytes. intros H0 H1 H2 H3.
  change (2 ^ 8) with 256. change (2 ^ 16) with 65536.
  change (2 ^ 24) with 16777216.
  repeat f_equal; Z.div_mod_to_equations; lia.
Qed.

(** X16.  Decoding loses nothing: the four patterns handed out for a
    valid frame determine all 18 bytes of it; encoding them gives the
    frame back, so two valid frames with the same measurement are the
    same frame. *)
Theorem encode_decode (frame : list Z) :
  valid_frame frame ->
  encode (pm_x (decode frame)) (pm_y (decode frame))
         (pm_z (decode frame)) (pm_stdDev (decode frame)) = frame.
Proof.
  intros (Hlen & Hu8 & Hsync & Hcrc). rewrite decode_fields.
  cbn [pm_x pm_y pm_z pm_stdDev].
  do 19 (destruct frame as [|? frame]; try discriminate Hlen).
  repeat match goal with
         | H : Forall _ (_ :: _) |- _ => inversion_clear H
         end.
  cbn [lookup_total list_lookup_total] in *.
  injection Hsync as ->.
  unfold encode, payload_of. rewrite !f32_bytes_of_bytes by done.
  cbn [app]. unfold payload in Hcrc. cbn [drop take] in Hcrc.
  cbn [lookup list_lookup] in Hcrc. injection Hcrc as Hcrc.
  by rewrite <- Hcrc.
Qed.

Lemma encode_decode_witness :
  encode 0x3F800000 0x40000000 0x40400000 0x3F800000 =
  [0xA5; 0; 0; 0x80; 0x3F; 0; 0; 0; 0x40; 0; 0; 0x40; 0x40;
   0; 0; 0x80; 0x3F; 0xD5].
Proof.
  apply (encode_decode
           [0xA5; 0; 0; 0x80; 0x3F; 0; 0; 0; 0x40; 0; 0; 0x40; 0x40;
            0; 0; 0x80; 0x3F; 0xD5]).
  split; [reflexivity|]. split; [solve_u8|]. split; [reflexivity|].
  vm_compute. reflexivity.
Defined.

(** ** Getting back to the idle state *)

Lemma frame_done_idle s :
  idx s = PKT_LEN ->
  idx (fst (frame_done s)) = 0%nat /\
  (length (emitted (snd (frame_done s))) <= 1)%nat.
Proof.
  intros H. rewrite frame_done_full by done.
  destruct (crc_ok (buf s)); cbn; lia.
Qed.

(** X17.  A frame in progress always ends: from any state with
    0 < cursor < 18, whatever the next 18 - cursor bytes are (sync bytes
    included), reading them brings the cursor back to 0 and hands out at
    most one measurement.  A false start therefore costs at most 17
    bytes of the stream. *)
Theorem frame_in_progress_ends s (bytes : list Z) :
  wf s -> (0 < idx s < 18)%nat -> length bytes = (18 - idx s)%nat ->
  exists s' outs,
    radarTask s bytes = Some (s', outs) /\
    idx s' = 0%nat /\ (length outs <= 1)%nat.
Proof.
  unfold wf, PKT_LEN. intros Hwf Hidx Hlen.
  destruct (split_last bytes (17 - idx s)) as (l & b & -> & Hl); [lia|].
  rewrite radarTask_app.
  rewrite (radarTask_fill l (take (idx s) (buf s)) (drop (idx s) (buf s)));
    [|by rewrite take_drop|rewrite length_take; lia|rewrite length_take; lia
     |rewrite length_drop; lia
     |rewrite length_take; unfold PKT_LEN; lia].
  cbn [mbind option_bind]. rewrite radarTask_cons.
  rewrite length_take, Nat.min_l by lia.
  rewrite radar_step_store by (cbn [idx]; unfold PKT_LEN; lia).
  cbn [buf idx lastX lastY lastZ poseValid mbind option_bind radarTask].
  match goal with
  | |- context [frame_done ?st] =>
      destruct (frame_done_idle st) as [Hidle Hone];
        [cbn [idx]; unfold PKT_LEN; lia|];
      destruct (frame_done st) as [s' out]
  end.
  exists s', (emitted out ++ []). cbn [fst snd] in Hidle, Hone.
  split; [by rewrite !app_nil_r|]. split; [done|].
  by rewrite app_nil_r.
Qed.

(** Sync bytes only, read while at cursor 3. *)
Lemma frame_in_progress_ends_witness :
  exists s' outs,
    radarTask (State (replicate 18 0xA5) 3 0 0 0 0) (replicate 15 0xA5)
    = Some (s', outs) /\
    idx s' = 0%nat /\ (length outs <= 1)%nat.
Proof.
  apply (frame_in_progress_ends (State (replicate 18 0xA5) 3 0 0 0 0)
           (replicate 15 0xA5));
    [reflexivity | cbn; lia | reflexivity].
Defined.

End Radar.
